(** * Sentiment-weighted trading decision engine

    A shallow embedding of [trading-service/main.py]: sentiment aggregation
    ([aggregate_sentiment]), order execution ([execute_trade]), trade
    persistence ([store_trade]), position reconciliation
    ([update_portfolio_positions]) and the control loop ([run_trading_bot]).

    Modelling conventions.
    - Python floats are modelled as exact rationals ([Q]); [int(x)] is
      truncation toward zero.
    - The module globals ([redis_client], [postgres_conn], [alpaca_api],
      [config]) and the external collaborators they talk to are the fields
      of one [World]; every function is a state transformer over it that
      returns normally or raises.
    - [logger] is taken to be a structured logger that accepts the keyword
      fields of every call: a call records an event (level and message) in
      the world's log and returns; the keyword fields are not recorded.
    - Time stamps ([executed_at], [last_updated]) and [asyncio.sleep] are not
      modelled.
    - [calls] is a ghost trace of the entries of [aggregate_sentiment],
      [execute_trade] and [update_portfolio_positions]; no code reads it. *)

From Stdlib Require Import List String Ascii Bool ZArith QArith Qround Qminmax Lia Lqa.
Import ListNotations.

Local Open Scope string_scope.

(** ** Exceptions and external replies *)

Inductive exn : Type :=
| IOError                 (* config file cannot be read or parsed *)
| RedisError              (* cache store call failed *)
| ValueError              (* int() of a malformed number *)
| TypeError               (* arithmetic or comparison on None *)
| PriceError              (* price oracle call failed *)
| APIError                (* brokerage call failed or order rejected *)
| OperationalError        (* durable store unreachable *)
| UniqueViolation         (* INSERT breaks a UNIQUE constraint *)
| InFailedSqlTransaction. (* statement sent in an aborted transaction *)

Inductive outcome (A : Type) : Type :=
| Ret (a : A)
| Raise (e : exn).
Arguments Ret {A} a.
Arguments Raise {A} e.

(** A Python value that is a number or [None]. *)
Inductive pyval : Type :=
| PyNone
| PyNum (q : Q).

(** A bytes value handed to [float()]: it parses, or [float] raises. *)
Inductive raw : Type :=
| Numeric (q : Q)
| Unparseable.

(** [d.get(k)] on a dict kept in insertion order. *)
Fixpoint dict_get {V : Type} (k : string) (d : list (string * V)) : option V :=
  match d with
  | [] => None
  | (k', v) :: d' => if String.eqb k k' then Some v else dict_get k d'
  end.

(** ** Configuration *)

(** [class Config]: the process-wide defaults read from the environment. *)
Module Config.
Record t : Type := mk {
  max_position_size : Q;
  sentiment_threshold : Q
}.
End Config.

(** One entry of [trading.symbols]: every field may be absent; [other_keys]
    are the keys of the entry the service does not read. *)
Module SymbolConfig.
Record t : Type := mk {
  weights : option (list (string * Q));
  sentiment_threshold : option Q;
  max_position_size : option Q;
  other_keys : list string
}.

(** The [{}] that [.get(symbol, {})] defaults to. *)
Definition empty : t := mk None None None [].

(** [not symbol_config]: the dict has no key at all. *)
Definition is_empty (c : t) : bool :=
  match weights c, sentiment_threshold c, max_position_size c, other_keys c with
  | None, None, None, [] => true
  | _, _, _, _ => false
  end.
End SymbolConfig.

(** The [trading] section of the configuration document; an absent
    [symbols] or [sentiment_weights] reads as the empty dict. *)
Record TradingConfig : Type := {
  symbols : list (string * SymbolConfig.t);
  sentiment_weights : list (string * Q)
}.

(** ** External collaborators *)

(** Cache store: [KEYS pattern] and [HGETALL key]. *)
Record Redis : Type := {
  keys : string -> outcome (list string);
  hgetall : string -> outcome (list (string * raw))
}.

Module Order.
Record t : Type := mk {
  id : string;
  status : string
}.
End Order.

Record OrderRequest : Type := {
  req_symbol : string;
  req_qty : Z;
  req_side : string;
  req_type : string;
  req_time_in_force : string
}.

(** A position as the brokerage reports it; [qty] is [None] when [int()]
    rejects the reported quantity. *)
Module Position.
Record t : Type := mk {
  symbol : string;
  qty : option Z;
  avg_entry_price : Q;
  current_price : Q;
  unrealized_pl : Q
}.
End Position.

(** Brokerage: the replies may depend on the calls made so far;
    [submitted] lists every [submit_order] call, most recent first. *)
Record Alpaca : Type := {
  submit_order_reply : list OrderRequest -> OrderRequest -> outcome Order.t;
  get_order_reply : string -> outcome Order.t;
  list_positions_reply : list OrderRequest -> outcome (list Position.t);
  submitted : list OrderRequest
}.

Module PortfolioPosition.
Record t : Type := mk {
  symbol : string;
  quantity : Z;
  average_price : Q;
  current_price : Q;
  total_value : Q;
  unrealized_pnl : Q
}.
End PortfolioPosition.

(** A row of the [trades] table. *)
Module Trade.
Record t : Type := mk {
  symbol : string;
  side : string;
  quantity : Z;
  price : Q;
  total_amount : Q;
  sentiment_score : option Q;
  alpaca_order_id : string;
  status : string
}.
End Trade.

(** Durable store behind a psycopg2 connection (no autocommit): a failed
    statement aborts the transaction, statements sent in an aborted
    transaction fail, and [commit] ends it.  Most recent row first.
    The declaration of the [trades] table is not part of the service's
    sources: [trades_unique_order_id] says whether it is declared UNIQUE on
    [alpaca_order_id]. *)
Record Postgres : Type := {
  trades : list Trade.t;
  portfolio_positions : list PortfolioPosition.t;
  trades_unique_order_id : bool;
  server_up : bool;
  tx_aborted : bool
}.

Inductive Level : Type := INFO | WARNING | ERROR.

Record LogRecord : Type := {
  level : Level;
  event : string
}.

Inductive Call : Type :=
| CallAggregate (symbol : string)
| CallExecute (symbol side : string) (quantity : Z) (sentiment_score : option Q)
| CallReconcile.

(** ** The world *)

Record World : Type := {
  redis_client : option Redis;
  postgres_conn : option Postgres;
  alpaca_api : option Alpaca;
  config : Config.t;
  config_file : outcome TradingConfig;
  (* yf.Ticker(symbol).info['regularMarketPrice'] at the n-th lookup:
     raises, key absent ([None]), or a value *)
  ticker_info : nat -> string -> outcome (option pyval);
  ticker_calls : nat;
  log : list LogRecord;
  calls : list Call
}.

Definition set_postgres_conn (p : option Postgres) (w : World) : World :=
  {| redis_client := redis_client w; postgres_conn := p;
     alpaca_api := alpaca_api w; config := config w;
     config_file := config_file w; ticker_info := ticker_info w;
     ticker_calls := ticker_calls w; log := log w; calls := calls w |}.

Definition set_alpaca_api (a : option Alpaca) (w : World) : World :=
  {| redis_client := redis_client w; postgres_conn := postgres_conn w;
     alpaca_api := a; config := config w;
     config_file := config_file w; ticker_info := ticker_info w;
     ticker_calls := ticker_calls w; log := log w; calls := calls w |}.

Definition set_ticker_calls (n : nat) (w : World) : World :=
  {| redis_client := redis_client w; postgres_conn := postgres_conn w;
     alpaca_api := alpaca_api w; config := config w;
     config_file := config_file w; ticker_info := ticker_info w;
     ticker_calls := n; log := log w; calls := calls w |}.

Definition set_log (l : list LogRecord) (w : World) : World :=
  {| redis_client := redis_client w; postgres_conn := postgres_conn w;
     alpaca_api := alpaca_api w; config := config w;
     config_file := config_file w; ticker_info := ticker_info w;
     ticker_calls := ticker_calls w; log := l; calls := calls w |}.

Definition set_calls (c : list Call) (w : World) : World :=
  {| redis_client := redis_client w; postgres_conn := postgres_conn w;
     alpaca_api := alpaca_api w; config := config w;
     config_file := config_file w; ticker_info := ticker_info w;
     ticker_calls := ticker_calls w; log := log w; calls := c |}.

(** ** State and exception monad *)

Definition M (A : Type) : Type := World -> outcome A * World.

Definition ret {A : Type} (a : A) : M A := fun w => (Ret a, w).

Definition raise {A : Type} (e : exn) : M A := fun w => (Raise e, w).

Definition bind {A B : Type} (m : M A) (k : A -> M B) : M B :=
  fun w =>
    match m w with
    | (Ret a, w') => k a w'
    | (Raise e, w') => (Raise e, w')
    end.

(** [try: m  except Exception as e: h e]. *)
Definition try_except {A : Type} (m : M A) (h : exn -> M A) : M A :=
  fun w =>
    match m w with
    | (Ret a, w') => (Ret a, w')
    | (Raise e, w') => h e w'
    end.

Definition lift {A : Type} (o : outcome A) : M A := fun w => (o, w).

Definition get {A : Type} (f : World -> A) : M A := fun w => (Ret (f w), w).

Declare Scope monad_scope.
Delimit Scope monad_scope with monad.
Notation "x <- m ;; k" := (bind m (fun x => k))
  (at level 61, m at next level, right associativity) : monad_scope.
Notation "m ;; k" := (bind m (fun _ => k))
  (at level 61, right associativity) : monad_scope.
Local Open Scope monad_scope.

(** [for x in xs: body x] *)
Fixpoint for_each {A : Type} (xs : list A) (body : A -> M unit) : M unit :=
  match xs with
  | [] => ret tt
  | x :: xs' => body x ;; for_each xs' body
  end.

Definition logger (lvl : Level) (msg : string) : M unit :=
  fun w => (Ret tt, set_log ({| level := lvl; event := msg |} :: log w) w).

Definition record_call (c : Call) : M unit :=
  fun w => (Ret tt, set_calls (c :: calls w) w).

(** ** load_trading_config *)

Definition default_trading_config : TradingConfig :=
  {| symbols := [];
     sentiment_weights :=
       [("twitter", 4 # 10); ("reddit", 3 # 10); ("news", 3 # 10)]%Q |}.

Definition load_trading_config : M TradingConfig :=
  try_except
    (c <- get config_file ;; lift c)
    (fun _ =>
       logger ERROR "Failed to load trading config" ;;
       ret default_trading_config).

(** [config_data.get("trading", {}).get("symbols", {}).get(symbol, {})] *)
Definition symbol_config_of (config_data : TradingConfig) (symbol : string)
  : SymbolConfig.t :=
  match dict_get symbol (symbols config_data) with
  | Some c => c
  | None => SymbolConfig.empty
  end.

(** [symbol_config.get("weights", <process-wide sentiment_weights>)] *)
Definition weights_of (config_data : TradingConfig) (symbol_config : SymbolConfig.t)
  : list (string * Q) :=
  match SymbolConfig.weights symbol_config with
  | Some ws => ws
  | None => sentiment_weights config_data
  end.

(** [symbol_config.get("sentiment_threshold", config.sentiment_threshold)] *)
Definition sentiment_threshold_of (cfg : Config.t) (symbol_config : SymbolConfig.t) : Q :=
  match SymbolConfig.sentiment_threshold symbol_config with
  | Some t => t
  | None => Config.sentiment_threshold cfg
  end.

(** [symbol_config.get("max_position_size", config.max_position_size)] *)
Definition max_position_size_of (cfg : Config.t) (symbol_config : SymbolConfig.t) : Q :=
  match SymbolConfig.max_position_size symbol_config with
  | Some m => m
  | None => Config.max_position_size cfg
  end.

(** ** aggregate_sentiment *)

Definition Qltb (x y : Q) : bool := negb (Qle_bool y x).

Definition Qsum (xs : list Q) : Q := fold_left Qplus xs 0%Q.

(** [np.mean] *)
Definition mean (xs : list Q) : Q :=
  (Qsum xs / inject_Z (Z.of_nat (List.length xs)))%Q.

(** The inner loop over [keys[:50]]: an entry without the field or with a
    malformed score is skipped. *)
Fixpoint collect_scores (r : Redis) (ks : list string) (source_scores : list Q)
  : outcome (list Q) :=
  match ks with
  | [] => Ret source_scores
  | key :: ks' =>
      match hgetall r key with
      | Raise e => Raise e
      | Ret entry =>
          match dict_get "sentiment_score" entry with
          | Some (Numeric score) => collect_scores r ks' (source_scores ++ [score])%list
          | Some Unparseable => collect_scores r ks' source_scores
          | None => collect_scores r ks' source_scores
          end
      end
  end.

Definition pattern_of (symbol source : string) : string :=
  "sentiment:" ++ symbol ++ ":" ++ source ++ ":*".

(** What one source contributes: the scores read from its first 50 keys. *)
Definition source_scores_of (r : Redis) (symbol source : string) : outcome (list Q) :=
  match keys r (pattern_of symbol source) with
  | Raise e => Raise e
  | Ret [] => Ret []
  | Ret ks => collect_scores r (firstn 50 ks) []
  end.

Record Totals : Type := {
  total_weighted_score : Q;
  total_weight : Q;
  source_count : nat
}.

Definition no_totals : Totals :=
  {| total_weighted_score := 0; total_weight := 0; source_count := 0 |}.

(** The loop over [weights.items()]. *)
Fixpoint accumulate (r : Redis) (symbol : string) (ws : list (string * Q)) (acc : Totals)
  : outcome Totals :=
  match ws with
  | [] => Ret acc
  | (source, weight) :: ws' =>
      match source_scores_of r symbol source with
      | Raise e => Raise e
      | Ret [] => accumulate r symbol ws' acc
      | Ret source_scores =>
          let avg_score := mean source_scores in
          accumulate r symbol ws'
            {| total_weighted_score := (total_weighted_score acc + avg_score * weight)%Q;
               total_weight := (total_weight acc + weight)%Q;
               source_count := S (source_count acc) |}
      end
  end.

Definition aggregate_sentiment (symbol : string) : M (option Q) :=
  record_call (CallAggregate symbol) ;;
  try_except
    (config_data <- load_trading_config ;;
     let symbol_config := symbol_config_of config_data symbol in
     if SymbolConfig.is_empty symbol_config then
       logger WARNING "No configuration found for symbol" ;;
       ret None
     else
       let weights := weights_of config_data symbol_config in
       client <- get redis_client ;;
       match client with
       | None => ret None
       | Some r =>
           acc <- lift (accumulate r symbol weights no_totals) ;;
           if Qltb 0 (total_weight acc) then
             let weighted_score := (total_weighted_score acc / total_weight acc)%Q in
             logger INFO "Sentiment aggregated" ;;
             ret (Some weighted_score)
           else ret None
       end)
    (fun _ =>
       logger ERROR "Failed to aggregate sentiment" ;;
       ret None).

(** ** Price oracle *)

(** [yf.Ticker(symbol).info.get('regularMarketPrice', 0)] *)
Definition regular_market_price (symbol : string) : M pyval :=
  fun w =>
    let w' := set_ticker_calls (S (ticker_calls w)) w in
    match ticker_info w (ticker_calls w) symbol with
    | Raise e => (Raise e, w')
    | Ret None => (Ret (PyNum 0), w')
    | Ret (Some v) => (Ret v, w')
    end.

(** ** Durable store statements *)

Definition set_trades (ts : list Trade.t) (pg : Postgres) : Postgres :=
  {| trades := ts; portfolio_positions := portfolio_positions pg;
     trades_unique_order_id := trades_unique_order_id pg;
     server_up := server_up pg; tx_aborted := tx_aborted pg |}.

Definition set_portfolio_positions (ps : list PortfolioPosition.t) (pg : Postgres)
  : Postgres :=
  {| trades := trades pg; portfolio_positions := ps;
     trades_unique_order_id := trades_unique_order_id pg;
     server_up := server_up pg; tx_aborted := tx_aborted pg |}.

Definition set_tx_aborted (b : bool) (pg : Postgres) : Postgres :=
  {| trades := trades pg; portfolio_positions := portfolio_positions pg;
     trades_unique_order_id := trades_unique_order_id pg;
     server_up := server_up pg; tx_aborted := b |}.

Definition Statement : Type := Postgres -> outcome unit * Postgres.

(** What every statement meets before it runs. *)
Definition statement (run : Statement) : Statement :=
  fun pg =>
    if negb (server_up pg) then (Raise OperationalError, pg)
    else if tx_aborted pg then (Raise InFailedSqlTransaction, pg)
    else run pg.

Definition has_order_id (order_id : string) (ts : list Trade.t) : bool :=
  existsb (fun t => String.eqb (Trade.alpaca_order_id t) order_id) ts.

(** [INSERT INTO trades (...) VALUES (...)] *)
Definition insert_trade (row : Trade.t) : Statement :=
  statement (fun pg =>
    if trades_unique_order_id pg && has_order_id (Trade.alpaca_order_id row) (trades pg)
    then (Raise UniqueViolation, set_tx_aborted true pg)
    else (Ret tt, set_trades (row :: trades pg) pg)).

Fixpoint upsert (p : PortfolioPosition.t) (rows : list PortfolioPosition.t)
  : list PortfolioPosition.t :=
  match rows with
  | [] => [p]
  | r :: rows' =>
      if String.eqb (PortfolioPosition.symbol r) (PortfolioPosition.symbol p)
      then p :: rows'
      else r :: upsert p rows'
  end.

(** [INSERT INTO portfolio_positions (...) ON CONFLICT (symbol) DO UPDATE ...] *)
Definition upsert_position (p : PortfolioPosition.t) : Statement :=
  statement (fun pg =>
    (Ret tt, set_portfolio_positions (upsert p (portfolio_positions pg)) pg)).

(** [postgres_conn.commit()] *)
Definition commit : Statement :=
  fun pg =>
    if negb (server_up pg) then (Raise OperationalError, pg)
    else (Ret tt, set_tx_aborted false pg).

(** Run a statement on the connection held in [postgres_conn]. *)
Definition on_postgres (stmt : Statement) : M unit :=
  fun w =>
    match postgres_conn w with
    | Some pg => let (o, pg') := stmt pg in (o, set_postgres_conn (Some pg') w)
    | None => (Raise TypeError, w)
    end.

(** ** store_trade *)

Definition store_trade (symbol side : string) (quantity : Z) (price total_amount : Q)
    (sentiment_score : option Q) (alpaca_order_id : string) : M unit :=
  try_except
    (conn <- get postgres_conn ;;
     match conn with
     | Some _ =>
         on_postgres
           (insert_trade
              (Trade.mk symbol side quantity price total_amount sentiment_score
                 alpaca_order_id "FILLED")) ;;
         on_postgres commit ;;
         logger INFO "Trade stored in database"
     | None => ret tt
     end)
    (fun _ => logger ERROR "Failed to store trade").

(** ** Brokerage calls *)

Definition set_submitted (rs : list OrderRequest) (a : Alpaca) : Alpaca :=
  {| submit_order_reply := submit_order_reply a;
     get_order_reply := get_order_reply a;
     list_positions_reply := list_positions_reply a;
     submitted := rs |}.

(** [alpaca_api.submit_order(symbol=, qty=, side=, type='market', time_in_force='day')] *)
Definition submit_order (symbol : string) (qty : Z) (side : string) : M Order.t :=
  fun w =>
    match alpaca_api w with
    | Some a =>
        let req := {| req_symbol := symbol; req_qty := qty; req_side := side;
                      req_type := "market"; req_time_in_force := "day" |} in
        (submit_order_reply a (submitted a) req,
         set_alpaca_api (Some (set_submitted (req :: submitted a) a)) w)
    | None => (Raise TypeError, w)
    end.

(** [alpaca_api.get_order(order_id)] *)
Definition get_order (order_id : string) : M Order.t :=
  fun w =>
    match alpaca_api w with
    | Some a => (get_order_reply a order_id, w)
    | None => (Raise TypeError, w)
    end.

(** [alpaca_api.list_positions()] *)
Definition list_positions : M (list Position.t) :=
  fun w =>
    match alpaca_api w with
    | Some a => (list_positions_reply a (submitted a), w)
    | None => (Raise TypeError, w)
    end.

(** [str.lower] on ASCII letters. *)
Definition lower_ascii (c : ascii) : ascii :=
  let n := nat_of_ascii c in
  if (65 <=? n)%nat && (n <=? 90)%nat then ascii_of_nat (n + 32) else c.

Fixpoint lower (s : string) : string :=
  match s with
  | EmptyString => EmptyString
  | String c s' => String (lower_ascii c) (lower s')
  end.

(** ** execute_trade *)

Definition execute_trade (symbol side : string) (quantity : Z)
    (sentiment_score : option Q) : M (option Order.t) :=
  record_call (CallExecute symbol side quantity sentiment_score) ;;
  api <- get alpaca_api ;;
  match api with
  | None =>
      logger ERROR "Alpaca API not available" ;;
      ret None
  | Some _ =>
      try_except
        (current_price <- regular_market_price symbol ;;
         match current_price with
         | PyNone => raise TypeError (* quantity * None *)
         | PyNum price =>
             if Qeq_bool price 0 then
               logger ERROR "Unable to get current price" ;;
               ret None
             else
               let total_amount := (inject_Z quantity * price)%Q in
               config_data <- load_trading_config ;;
               let symbol_config := symbol_config_of config_data symbol in
               cfg <- get config ;;
               let max_position_size := max_position_size_of cfg symbol_config in
               if Qltb max_position_size total_amount then
                 logger WARNING "Trade exceeds max position size" ;;
                 ret None
               else
                 order <- submit_order symbol quantity (lower side) ;;
                 order_status <- get_order (Order.id order) ;;
                 store_trade symbol side quantity price total_amount sentiment_score
                   (Order.id order) ;;
                 logger INFO "Trade executed successfully" ;;
                 ret (Some order_status)
         end)
        (fun _ =>
           logger ERROR "Trade execution failed" ;;
           ret None)
  end.

(** ** Portfolio *)

(** The loop of [get_portfolio_positions] over the brokerage's positions. *)
Fixpoint convert_positions (positions : list Position.t)
    (acc : list PortfolioPosition.t) : outcome (list PortfolioPosition.t) :=
  match positions with
  | [] => Ret acc
  | position :: positions' =>
      match Position.qty position with
      | None => Raise ValueError
      | Some quantity =>
          let current_price := Position.current_price position in
          convert_positions positions'
            (acc ++ [PortfolioPosition.mk (Position.symbol position) quantity
                       (Position.avg_entry_price position) current_price
                       (inject_Z quantity * current_price)%Q
                       (Position.unrealized_pl position)])%list
      end
  end.

Definition get_portfolio_positions : M (list PortfolioPosition.t) :=
  try_except
    (api <- get alpaca_api ;;
     match api with
     | None => ret []
     | Some _ =>
         positions <- list_positions ;;
         lift (convert_positions positions [])
     end)
    (fun _ =>
       logger ERROR "Failed to get portfolio positions" ;;
       ret []).

Definition update_portfolio_positions : M unit :=
  record_call CallReconcile ;;
  try_except
    (positions <- get_portfolio_positions ;;
     conn <- get postgres_conn ;;
     match conn with
     | Some _ =>
         for_each positions (fun position => on_postgres (upsert_position position)) ;;
         on_postgres commit ;;
         logger INFO "Portfolio positions updated"
     | None => ret tt
     end)
    (fun _ => logger ERROR "Failed to update portfolio positions").

(** ** run_trading_bot *)

(** [int(x)] *)
Definition py_int (x : Q) : Z := Z.quot (Qnum x) (Zpos (Qden x)).

(** [int(max_position_size / current_price)] *)
Definition buy_quantity (max_position_size current_price : Q) : Z :=
  py_int (max_position_size / current_price).

(** [symbol in position_symbols] *)
Definition in_positions (symbol : string) (current_positions : list PortfolioPosition.t)
  : bool :=
  existsb (fun pos => String.eqb (PortfolioPosition.symbol pos) symbol) current_positions.

(** [next((pos for pos in current_positions if pos.symbol == symbol), None)] *)
Definition find_position (symbol : string) (current_positions : list PortfolioPosition.t)
  : option PortfolioPosition.t :=
  find (fun pos => String.eqb (PortfolioPosition.symbol pos) symbol) current_positions.

(** The trading logic of the loop body, once a score is at hand. *)
Definition trade_on_sentiment (config_data : TradingConfig)
    (current_positions : list PortfolioPosition.t) (symbol : string)
    (sentiment_score : Q) : M unit :=
  let symbol_config := symbol_config_of config_data symbol in
  cfg <- get config ;;
  let sentiment_threshold := sentiment_threshold_of cfg symbol_config in
  if Qltb sentiment_threshold sentiment_score then
    if negb (in_positions symbol current_positions) then
      let max_position_size := max_position_size_of cfg symbol_config in
      current_price <- regular_market_price symbol ;;
      match current_price with
      | PyNone => raise TypeError (* None > 0 *)
      | PyNum price =>
          if Qltb 0 price then
            let quantity := buy_quantity max_position_size price in
            if (0 <? quantity)%Z then
              execute_trade symbol "BUY" quantity (Some sentiment_score) ;;
              logger INFO "Buy signal triggered"
            else ret tt
          else ret tt
      end
    else ret tt
  else if Qltb sentiment_score (- sentiment_threshold) then
    if in_positions symbol current_positions then
      match find_position symbol current_positions with
      | Some position =>
          if (0 <? PortfolioPosition.quantity position)%Z then
            execute_trade symbol "SELL" (PortfolioPosition.quantity position)
              (Some sentiment_score) ;;
            logger INFO "Sell signal triggered"
          else ret tt
      | None => ret tt
      end
    else ret tt
  else ret tt.

(** The body of [for symbol in symbols], with its own [try]. *)
Definition process_symbol (config_data : TradingConfig)
    (current_positions : list PortfolioPosition.t) (symbol : string) : M unit :=
  try_except
    (sentiment_score <- aggregate_sentiment symbol ;;
     match sentiment_score with
     | None => ret tt
     | Some score => trade_on_sentiment config_data current_positions symbol score
     end)
    (fun _ => logger ERROR "Error processing symbol").

Definition run_trading_bot : M unit :=
  try_except
    (logger INFO "Running trading bot iteration" ;;
     config_data <- load_trading_config ;;
     let symbols := map fst (symbols config_data) in
     match symbols with
     | [] => logger WARNING "No symbols configured for trading"
     | _ :: _ =>
         current_positions <- get_portfolio_positions ;;
         for_each symbols (process_symbol config_data current_positions) ;;
         update_portfolio_positions ;;
         logger INFO "Trading bot iteration completed"
     end)
    (fun _ => logger ERROR "Trading bot failed").

(** ** Specification-side vocabulary *)

(** The configuration document a call works from: the file, or the
    built-in defaults when it cannot be read. *)
Definition loaded_config (w : World) : TradingConfig :=
  match config_file w with
  | Ret c => c
  | Raise _ => default_trading_config
  end.

(** The source weights configured for an instrument. *)
Definition configured_weights (w : World) (symbol : string) : list (string * Q) :=
  weights_of (loaded_config w) (symbol_config_of (loaded_config w) symbol).

(** The observations a source produced: the scores read for it. *)
Definition observations_of (r : Redis) (symbol source : string) : list Q :=
  match source_scores_of r symbol source with
  | Ret xs => xs
  | Raise _ => []
  end.

Definition has_observation (w : World) (symbol source : string) : bool :=
  match redis_client w with
  | Some r =>
      match observations_of r symbol source with
      | [] => false
      | _ :: _ => true
      end
  | None => false
  end.

Definition sigma (xs : list Q) : Q := fold_right Qplus 0%Q xs.

Definition arithmetic_mean (xs : list Q) : Q :=
  (sigma xs / inject_Z (Z.of_nat (List.length xs)))%Q.

(** The sources that produced at least one observation. *)
Definition contributing (r : Redis) (symbol : string) (ws : list (string * Q))
  : list (string * Q) :=
  filter (fun sw => match observations_of r symbol (fst sw) with
                    | [] => false
                    | _ :: _ => true
                    end) ws.

(** [Σ(source_score × weight)] over the contributing sources. *)
Definition sigma_score_weight (r : Redis) (symbol : string) (ws : list (string * Q)) : Q :=
  sigma (map (fun sw => (arithmetic_mean (observations_of r symbol (fst sw)) * snd sw)%Q)
           (contributing r symbol ws)).

(** [Σ(weight)] over the contributing sources. *)
Definition sigma_weight (r : Redis) (symbol : string) (ws : list (string * Q)) : Q :=
  sigma (map snd (contributing r symbol ws)).

Definition spec_weighted_score (r : Redis) (symbol : string) (ws : list (string * Q)) : Q :=
  (sigma_score_weight r symbol ws / sigma_weight r symbol ws)%Q.

(** Every cache read made for the instrument's sources succeeds. *)
Definition reads_succeed (r : Redis) (symbol : string) (ws : list (string * Q)) : Prop :=
  forall source weight, In (source, weight) ws ->
    exists xs, source_scores_of r symbol source = Ret xs.

(** [w'] differs from [w] at most in its log and its ghost trace. *)
Definition same_services (w w' : World) : Prop :=
  redis_client w' = redis_client w
  /\ postgres_conn w' = postgres_conn w
  /\ alpaca_api w' = alpaca_api w
  /\ config w' = config w
  /\ config_file w' = config_file w
  /\ ticker_info w' = ticker_info w
  /\ ticker_calls w' = ticker_calls w.

(** The value [aggregate_sentiment] computes from the world it is called in. *)
Definition aggregate_result (w : World) (symbol : string) : option Q :=
  let config_data := loaded_config w in
  let symbol_config := symbol_config_of config_data symbol in
  if SymbolConfig.is_empty symbol_config then None
  else
    match redis_client w with
    | None => None
    | Some r =>
        match accumulate r symbol (weights_of config_data symbol_config) no_totals with
        | Ret acc =>
            if Qltb 0 (total_weight acc)
            then Some (total_weighted_score acc / total_weight acc)%Q
            else None
        | Raise _ => None
        end
    end.

(** The durable store after one [store_trade] of [row]. *)
Definition after_store (row : Trade.t) (pg : Postgres) : Postgres :=
  match insert_trade row pg with
  | (Ret _, pg1) => snd (commit pg1)
  | (Raise _, pg1) => pg1
  end.

(** How many trade records carry a broker order id. *)
Definition order_id_count (order_id : string) (ts : list Trade.t) : nat :=
  List.length (filter (fun t => String.eqb (Trade.alpaca_order_id t) order_id) ts).

(** The order [execute_trade] submits for its arguments. *)
Definition order_request (symbol : string) (quantity : Z) (side : string) : OrderRequest :=
  {| req_symbol := symbol; req_qty := quantity; req_side := lower side;
     req_type := "market"; req_time_in_force := "day" |}.

(** The threshold and the cap the loop body resolves for an instrument. *)
Definition threshold_for (w : World) (config_data : TradingConfig) (symbol : string) : Q :=
  sentiment_threshold_of (config w) (symbol_config_of config_data symbol).

Definition cap_for (w : World) (config_data : TradingConfig) (symbol : string) : Q :=
  max_position_size_of (config w) (symbol_config_of config_data symbol).

(** The instruments [aggregate_sentiment] was entered for, oldest first,
    read off a ghost trace (most recent call first). *)
Fixpoint aggregated (cs : list Call) : list string :=
  match cs with
  | [] => []
  | CallAggregate symbol :: cs' => (aggregated cs' ++ [symbol])%list
  | _ :: cs' => aggregated cs'
  end.

(** ** Concrete worlds *)

(** A cache store holding, for each key pattern, its keys and their entries. *)
Definition redis_with (data : list (string * list (string * list (string * raw))))
  : Redis :=
  {| keys := fun pattern =>
       Ret (match dict_get pattern data with
            | Some entries => map fst entries
            | None => []
            end);
     hgetall := fun key =>
       Ret (match dict_get key (List.concat (map snd data)) with
            | Some entry => entry
            | None => []
            end) |}.

(** The process-wide defaults of [Config] with no environment override. *)
Definition default_config : Config.t := Config.mk 10000 (6 # 10).

Definition world_of (r : option Redis) (pg : option Postgres) (a : option Alpaca)
    (file : outcome TradingConfig) (prices : nat -> string -> outcome (option pyval))
  : World :=
  {| redis_client := r; postgres_conn := pg; alpaca_api := a;
     config := default_config; config_file := file;
     ticker_info := prices; ticker_calls := 0; log := []; calls := [] |}.

Definition no_prices : nat -> string -> outcome (option pyval) :=
  fun _ _ => Raise PriceError.

(** One instrument whose only source has weight 0 and one observation. *)
Definition zero_weight_world : World :=
  world_of
    (Some (redis_with
             [("sentiment:AAPL:twitter:*",
               [("sentiment:AAPL:twitter:1", [("sentiment_score", Numeric (1 # 2))])])]))
    None None
    (Ret {| symbols := [("AAPL", SymbolConfig.mk (Some [("twitter", 0%Q)]) None None [])];
            sentiment_weights := [] |})
    no_prices.

(** The end-to-end scenario: weights A 0.4, B 0.3, C 0.3; A observed 0.8
    and 0.6, B not observed, C observed 0.5. *)
Definition scenario_world : World :=
  world_of
    (Some (redis_with
             [("sentiment:X:A:*",
               [("sentiment:X:A:1", [("sentiment_score", Numeric (8 # 10))]);
                ("sentiment:X:A:2", [("sentiment_score", Numeric (6 # 10))])]);
              ("sentiment:X:C:*",
               [("sentiment:X:C:1", [("sentiment_score", Numeric (5 # 10))])])]))
    None None
    (Ret {| symbols :=
              [("X", SymbolConfig.mk
                       (Some [("A", 4 # 10); ("B", 3 # 10); ("C", 3 # 10)]%Q)
                       None None [])];
            sentiment_weights := [] |})
    no_prices.

(** An instrument configured with one source that has no key in the cache. *)
Definition silent_world : World :=
  world_of (Some (redis_with [])) None None
    (Ret {| symbols := [("AAPL", SymbolConfig.mk (Some [("twitter", 1%Q)]) None None [])];
            sentiment_weights := [] |})
    no_prices.

(** A brokerage that fails every submission. *)
Definition rejecting_broker : Alpaca :=
  {| submit_order_reply := fun _ _ => Raise APIError;
     get_order_reply := fun _ => Raise APIError;
     list_positions_reply := fun _ => Ret [];
     submitted := [] |}.

(** A brokerage that accepts every order and reports it filled. *)
Definition accepting_broker : Alpaca :=
  {| submit_order_reply := fun _ _ => Ret (Order.mk "order-1" "accepted");
     get_order_reply := fun order_id => Ret (Order.mk order_id "filled");
     list_positions_reply := fun _ => Ret [];
     submitted := [] |}.

Definition fixed_price (p : Q) : nat -> string -> outcome (option pyval) :=
  fun _ _ => Ret (Some (PyNum p)).

(** An empty durable store whose trades table is unique on the order id. *)
Definition empty_store : Postgres :=
  {| trades := []; portfolio_positions := []; trades_unique_order_id := true;
     server_up := true; tx_aborted := false |}.

(** The same store, unreachable. *)
Definition down_store : Postgres :=
  {| trades := []; portfolio_positions := []; trades_unique_order_id := true;
     server_up := false; tx_aborted := false |}.

Definition no_config : outcome TradingConfig := Raise IOError.

Definition rejecting_world : World :=
  world_of None (Some empty_store) (Some rejecting_broker) no_config (fixed_price 100).

Definition accepting_world : World :=
  world_of None (Some empty_store) (Some accepting_broker) no_config (fixed_price 100).

Definition store_down_world : World :=
  world_of None (Some down_store) (Some accepting_broker) no_config (fixed_price 100).

(** A store whose trades table carries no uniqueness constraint. *)
Definition unconstrained_world : World :=
  world_of None
    (Some {| trades := []; portfolio_positions := []; trades_unique_order_id := false;
             server_up := true; tx_aborted := false |})
    None no_config no_prices.

(** One instrument whose own cap is above the process-wide default. *)
Definition large_cap_config : TradingConfig :=
  {| symbols := [("AAPL", SymbolConfig.mk None None (Some 20000) [])];
     sentiment_weights := [] |}.

Definition large_cap_world : World :=
  world_of None (Some empty_store) (Some accepting_broker) (Ret large_cap_config)
    (fixed_price 100).

(** AAPL has an entry that sets none of the three fields; MSFT has no
    entry; both have one twitter observation of 0.9. *)
Definition fallback_config : TradingConfig :=
  {| symbols := [("AAPL", SymbolConfig.mk None None None ["enabled"])];
     sentiment_weights := [("twitter", 4 # 10)] |}.

Definition fallback_world : World :=
  world_of
    (Some (redis_with
             [("sentiment:AAPL:twitter:*",
               [("sentiment:AAPL:twitter:1", [("sentiment_score", Numeric (9 # 10))])]);
              ("sentiment:MSFT:twitter:*",
               [("sentiment:MSFT:twitter:1", [("sentiment_score", Numeric (9 # 10))])])]))
    (Some empty_store) (Some accepting_broker) (Ret fallback_config) (fixed_price 100).

(** Two instruments, each with one twitter observation of 0.9; the price
    lookup fails for AAPL and answers 100 for every other instrument. *)
Definition two_symbol_config : TradingConfig :=
  {| symbols := [("AAPL", SymbolConfig.mk (Some [("twitter", 1%Q)]) None None []);
                 ("MSFT", SymbolConfig.mk (Some [("twitter", 1%Q)]) None None [])];
     sentiment_weights := [] |}.

Definition aapl_price_fails : nat -> string -> outcome (option pyval) :=
  fun _ symbol =>
    if String.eqb symbol "AAPL" then Raise PriceError else Ret (Some (PyNum 100)).

Definition failing_price_world : World :=
  world_of
    (Some (redis_with
             [("sentiment:AAPL:twitter:*",
               [("sentiment:AAPL:twitter:1", [("sentiment_score", Numeric (9 # 10))])]);
              ("sentiment:MSFT:twitter:*",
               [("sentiment:MSFT:twitter:1", [("sentiment_score", Numeric (9 # 10))])])]))
    (Some empty_store) (Some accepting_broker) (Ret two_symbol_config) aapl_price_fails.

(** One instrument whose only source, of weight 1, has one observation: 0. *)
Definition zero_score_world : World :=
  world_of
    (Some (redis_with
             [("sentiment:AAPL:twitter:*",
               [("sentiment:AAPL:twitter:1", [("sentiment_score", Numeric 0)])])]))
    None None
    (Ret {| symbols := [("AAPL", SymbolConfig.mk (Some [("twitter", 1%Q)]) None None [])];
            sentiment_weights := [] |})
    no_prices.

(** ** Vocabulary for the further properties *)

(** The score one cache entry contributes: the parsed [sentiment_score]
    field, or nothing. *)
Definition entry_scores (r : Redis) (key : string) : list Q :=
  match hgetall r key with
  | Ret entry =>
      match dict_get "sentiment_score" entry with
      | Some (Numeric score) => [score]
      | _ => []
      end
  | Raise _ => []
  end.

(** A cache store like [scenario_world]'s whose [KEYS] call fails for
    source B of instrument X. *)
Definition flaky_redis : Redis :=
  {| keys := fun pattern =>
       if String.eqb pattern "sentiment:X:B:*" then Raise RedisError
       else keys (redis_with
                    [("sentiment:X:A:*",
                      [("sentiment:X:A:1", [("sentiment_score", Numeric (8 # 10))])])])
              pattern;
     hgetall := hgetall (redis_with
                    [("sentiment:X:A:*",
                      [("sentiment:X:A:1", [("sentiment_score", Numeric (8 # 10))])])]) |}.

Definition flaky_world : World :=
  world_of (Some flaky_redis) None None
    (Ret {| symbols :=
              [("X", SymbolConfig.mk (Some [("A", 4 # 10); ("B", 3 # 10)]%Q) None None [])];
            sentiment_weights := [] |})
    no_prices.

(** A source with three keys: a well-formed score, a malformed one, and an
    entry without the field. *)
Definition mixed_redis : Redis :=
  redis_with
    [("sentiment:X:A:*",
      [("sentiment:X:A:1", [("sentiment_score", Numeric (8 # 10))]);
       ("sentiment:X:A:2", [("sentiment_score", Unparseable)]);
       ("sentiment:X:A:3", [("confidence_score", Numeric (9 # 10))]);
       ("sentiment:X:A:4", [("sentiment_score", Numeric (-2 # 10))])])].

(** A position of 40 shares of instrument Y. *)
Definition held_position : PortfolioPosition.t :=
  PortfolioPosition.mk "Y" 40 100 100 4000 0.

(** A world whose price source has no [regularMarketPrice] for any
    instrument. *)
Definition no_quote_world : World :=
  world_of None (Some empty_store) (Some accepting_broker) no_config
    (fun _ _ => Ret None).

(** [int(position.qty)] succeeds. *)
Definition parses (position : Position.t) : bool :=
  match Position.qty position with
  | Some _ => true
  | None => false
  end.

(** The [PortfolioPosition] built from a brokerage position. *)
Definition mirrored (position : Position.t) : PortfolioPosition.t :=
  let quantity := match Position.qty position with Some q => q | None => 0%Z end in
  PortfolioPosition.mk (Position.symbol position) quantity
    (Position.avg_entry_price position) (Position.current_price position)
    (inject_Z quantity * Position.current_price position)%Q
    (Position.unrealized_pl position).

(** What [get_portfolio_positions] answers in a world. *)
Definition reported_positions (w : World) : list PortfolioPosition.t :=
  match alpaca_api w with
  | None => []
  | Some a =>
      match list_positions_reply a (submitted a) with
      | Ret positions =>
          if forallb parses positions then map mirrored positions else []
      | Raise _ => []
      end
  end.

(** The instruments of a position mirror. *)
Definition mirror_symbols (rows : list PortfolioPosition.t) : list string :=
  map PortfolioPosition.symbol rows.

(** The mirror after every position of a pass has been upserted. *)
Definition upsert_all (positions rows : list PortfolioPosition.t)
  : list PortfolioPosition.t :=
  fold_left (fun m p => upsert p m) positions rows.

(** A brokerage holding two positions, the second with a fractional
    quantity that [int()] rejects. *)
Definition fractional_broker : Alpaca :=
  {| submit_order_reply := fun _ _ => Raise APIError;
     get_order_reply := fun _ => Raise APIError;
     list_positions_reply := fun _ =>
       Ret [Position.mk "AAPL" (Some 10%Z) 100 110 100;
            Position.mk "MSFT" None 200 210 50];
     submitted := [] |}.

(** A brokerage holding 10 AAPL and 5 MSFT. *)
Definition holding_broker : Alpaca :=
  {| submit_order_reply := fun _ _ => Raise APIError;
     get_order_reply := fun _ => Raise APIError;
     list_positions_reply := fun _ =>
       Ret [Position.mk "AAPL" (Some 10%Z) 100 110 100;
            Position.mk "MSFT" (Some 5%Z) 200 210 50];
     submitted := [] |}.

(** A store whose mirror already holds a stale TSLA row and an old AAPL
    row. *)
Definition stale_store : Postgres :=
  {| trades := [];
     portfolio_positions :=
       [PortfolioPosition.mk "TSLA" 3 300 300 900 0;
        PortfolioPosition.mk "AAPL" 4 90 95 380 20];
     trades_unique_order_id := true; server_up := true; tx_aborted := false |}.

Definition holding_world : World :=
  world_of None (Some stale_store) (Some holding_broker) no_config no_prices.

(** The instruments [execute_trade] was entered for, oldest first, read off
    a ghost trace. *)
Fixpoint executed (cs : list Call) : list string :=
  match cs with
  | [] => []
  | CallExecute symbol _ _ _ :: cs' => (executed cs' ++ [symbol])%list
  | _ :: cs' => executed cs'
  end.

(** ** HTTP endpoints *)

(** What can be raised at the HTTP layer: a Python exception of the service
    or FastAPI's [HTTPException] (its [detail] text is not modelled). *)
Inductive exception : Type :=
| Builtin (e : exn)
| HTTPException (status_code : nat).

Inductive http_outcome (A : Type) : Type :=
| Returned (a : A)
| Raised (e : exception).
Arguments Returned {A} a.
Arguments Raised {A} e.

Definition Endpoint (A : Type) : Type := World -> http_outcome A * World.

Definition h_ret {A : Type} (a : A) : Endpoint A := fun w => (Returned a, w).

Definition h_raise {A : Type} (e : exception) : Endpoint A := fun w => (Raised e, w).

Definition h_bind {A B : Type} (m : Endpoint A) (k : A -> Endpoint B) : Endpoint B :=
  fun w =>
    match m w with
    | (Returned a, w') => k a w'
    | (Raised e, w') => (Raised e, w')
    end.

(** [try: m  except Exception as e: h e]; [HTTPException] is an
    [Exception]. *)
Definition h_try {A : Type} (m : Endpoint A) (h : exception -> Endpoint A) : Endpoint A :=
  fun w =>
    match m w with
    | (Returned a, w') => (Returned a, w')
    | (Raised e, w') => h e w'
    end.

(** A call into the service from an endpoint. *)
Definition h_call {A : Type} (m : M A) : Endpoint A :=
  fun w =>
    match m w with
    | (Ret a, w') => (Returned a, w')
    | (Raise e, w') => (Raised (Builtin e), w')
    end.

Module TradeRequest.
Record t : Type := mk {
  symbol : string;
  side : string;
  quantity : Z;
  sentiment_score : option Q
}.
End TradeRequest.

(** The body of a successful [/trade] response. *)
Module TradeResponse.
Record t : Type := mk {
  message : string;
  order_id : string;
  status : string
}.
End TradeResponse.

(** [POST /trade] *)
Definition execute_trade_endpoint (request : TradeRequest.t) : Endpoint TradeResponse.t :=
  h_try
    (h_bind
       (h_call (execute_trade (TradeRequest.symbol request) (TradeRequest.side request)
                  (TradeRequest.quantity request) (TradeRequest.sentiment_score request)))
       (fun result =>
          match result with
          | Some result =>
              h_ret (TradeResponse.mk "Trade executed successfully" (Order.id result)
                       (Order.status result))
          | None => h_raise (HTTPException 400)
          end))
    (fun _ =>
       h_bind (h_call (logger ERROR "Trade endpoint failed"))
         (fun _ => h_raise (HTTPException 500))).

(** The body of a [/sentiment/{symbol}] response. *)
Module SentimentResponse.
Record t : Type := mk {
  symbol : string;
  sentiment_score : option Q;
  message : option string
}.
End SentimentResponse.

(** [GET /sentiment/{symbol}] *)
Definition get_symbol_sentiment (symbol : string) : Endpoint SentimentResponse.t :=
  h_try
    (h_bind (h_call (aggregate_sentiment symbol))
       (fun sentiment_score =>
          match sentiment_score with
          | Some score => h_ret (SentimentResponse.mk symbol (Some score) None)
          | None =>
              h_ret (SentimentResponse.mk symbol None
                       (Some "No sentiment data available"))
          end))
    (fun _ =>
       h_bind (h_call (logger ERROR "Sentiment endpoint failed"))
         (fun _ => h_raise (HTTPException 500))).

(** The body of a [/portfolio] response. *)
Module PortfolioResponse.
Record t : Type := mk {
  positions : list PortfolioPosition.t;
  total_positions : nat
}.
End PortfolioResponse.

(** [GET /portfolio] *)
Definition get_portfolio : Endpoint PortfolioResponse.t :=
  h_try
    (h_bind (h_call get_portfolio_positions)
       (fun positions =>
          h_ret (PortfolioResponse.mk positions (List.length positions))))
    (fun _ =>
       h_bind (h_call (logger ERROR "Portfolio endpoint failed"))
         (fun _ => h_raise (HTTPException 500))).

(** A position of 150 shares of Y, worth 15000 at a price of 100. *)
Definition grown_position : PortfolioPosition.t :=
  PortfolioPosition.mk "Y" 150 50 100 15000 7500.

(** * Proofs *)

(** ** Monad plumbing *)

Lemma same_services_refl (w : World) : same_services w w.
Proof. repeat split. Qed.

Lemma same_services_trans (w1 w2 w3 : World) :
  same_services w1 w2 -> same_services w2 w3 -> same_services w1 w3.
Proof.
  unfold same_services. intros H1 H2.
  repeat match goal with H : _ /\ _ |- _ => destruct H end.
  repeat split; etransitivity; eassumption.
Qed.

Lemma load_trading_config_ret (w : World) :
  exists w', load_trading_config w = (Ret (loaded_config w), w')
             /\ calls w' = calls w /\ same_services w w'.
Proof.
  unfold load_trading_config, loaded_config, try_except, bind, get, lift, logger, ret.
  destruct (config_file w) as [c | e] eqn:E; eexists; repeat split;
    try reflexivity; exact E.
Qed.

(** ** Aggregation *)

Lemma Qltb_lt (x y : Q) : Qltb x y = true <-> (x < y)%Q.
Proof.
  unfold Qltb. rewrite negb_true_iff. split; intro H.
  - apply Qnot_le_lt. intro Hle. apply Qle_bool_iff in Hle. congruence.
  - destruct (Qle_bool y x) eqn:E; [|reflexivity].
    apply Qle_bool_iff in E. exfalso. apply (Qlt_not_le _ _ H E).
Qed.

Lemma same_services_set_log (l : list LogRecord) (w w' : World) :
  same_services w w' -> same_services w (set_log l w').
Proof. intro H. exact H. Qed.

Lemma aggregate_sentiment_ret (symbol : string) (w : World) :
  exists w', aggregate_sentiment symbol w = (Ret (aggregate_result w symbol), w')
             /\ calls w' = CallAggregate symbol :: calls w
             /\ same_services w w'.
Proof.
  unfold aggregate_sentiment, aggregate_result.
  unfold bind at 1. unfold record_call at 1. unfold try_except, bind at 1.
  set (w0 := set_calls (CallAggregate symbol :: calls w) w).
  destruct (load_trading_config_ret w0) as (w1 & Hload & Hcalls & Hsame).
  rewrite Hload.
  assert (Hcfg : loaded_config w0 = loaded_config w) by reflexivity.
  rewrite Hcfg.
  assert (Hsame0 : same_services w w1).
  { apply same_services_trans with w0; [repeat split | exact Hsame]. }
  destruct (SymbolConfig.is_empty (symbol_config_of (loaded_config w) symbol)).
  - eexists; split; [reflexivity|]. split; [exact Hcalls | exact Hsame0].
  - unfold bind, get, lift, logger, ret.
    pose proof Hsame0 as (Hr & _). rewrite Hr.
    destruct (redis_client w) as [r|].
    + destruct (accumulate r symbol _ no_totals) as [acc | e].
      * destruct (Qltb 0 (total_weight acc));
          (eexists; split; [reflexivity|]; split; [exact Hcalls|]);
          try apply same_services_set_log; exact Hsame0.
      * eexists; split; [reflexivity|]; split; [exact Hcalls|].
        apply same_services_set_log; exact Hsame0.
    + eexists; split; [reflexivity|]; split; [exact Hcalls|]. exact Hsame0.
Qed.

Lemma fold_left_Qplus (xs : list Q) :
  forall a : Q, (fold_left Qplus xs a == a + sigma xs)%Q.
Proof.
  induction xs as [| x xs IH]; intro a; simpl.
  - ring.
  - rewrite IH. ring.
Qed.

Lemma mean_arithmetic_mean (xs : list Q) : (mean xs == arithmetic_mean xs)%Q.
Proof.
  unfold mean, arithmetic_mean, Qsum.
  rewrite fold_left_Qplus. now rewrite Qplus_0_l.
Qed.

(** The two loops of [aggregate_sentiment], for one cache store and one
    instrument. *)
Section Accumulation.

Variable r : Redis.
Variable symbol : string.

Lemma accumulate_no_observation :
  forall (ws : list (string * Q)) (acc : Totals),
    (forall source weight, In (source, weight) ws ->
       observations_of r symbol source = []) ->
    accumulate r symbol ws acc = Ret acc
    \/ exists e, accumulate r symbol ws acc = Raise e.
Proof.
  induction ws as [| [source weight] ws IH]; intros acc Hnone; simpl.
  - now left.
  - assert (Hs := Hnone source weight (or_introl eq_refl)).
    unfold observations_of in Hs.
    destruct (source_scores_of r symbol source) as [xs | e].
    + subst xs. apply IH. intros s' w' Hin. apply (Hnone s' w'). now right.
    + right. now exists e.
Qed.

Lemma contributing_cons (source : string) (weight : Q)
    (ws : list (string * Q)) :
  contributing r symbol ((source, weight) :: ws) =
  match observations_of r symbol source with
  | [] => contributing r symbol ws
  | _ :: _ => (source, weight) :: contributing r symbol ws
  end.
Proof.
  unfold contributing. simpl.
  destruct (observations_of r symbol source); reflexivity.
Qed.

Lemma accumulate_totals :
  forall (ws : list (string * Q)) (acc : Totals),
    reads_succeed r symbol ws ->
    exists acc',
      accumulate r symbol ws acc = Ret acc'
      /\ (total_weighted_score acc'
            == total_weighted_score acc + sigma_score_weight r symbol ws)%Q
      /\ (total_weight acc' == total_weight acc + sigma_weight r symbol ws)%Q
      /\ source_count acc'
         = (source_count acc + List.length (contributing r symbol ws))%nat.
Proof.
  unfold sigma_score_weight, sigma_weight.
  induction ws as [| [source weight] ws IH]; intros acc Hreads.
  - exists acc. simpl. repeat split; try ring. lia.
  - assert (Hrest : reads_succeed r symbol ws).
    { intros s' w' Hin. apply (Hreads s' w'). now right. }
    destruct (Hreads source weight (or_introl eq_refl)) as [xs Hxs].
    assert (Hobs : observations_of r symbol source = xs).
    { unfold observations_of. now rewrite Hxs. }
    cbn [accumulate]. rewrite contributing_cons, Hobs, Hxs.
    destruct xs as [| x xs].
    + apply IH. exact Hrest.
    + destruct (IH {| total_weighted_score :=
                        (total_weighted_score acc + mean (x :: xs) * weight)%Q;
                      total_weight := (total_weight acc + weight)%Q;
                      source_count := S (source_count acc) |} Hrest)
        as (acc' & Hacc & Hs & Hw & Hc).
      exists acc'. split; [exact Hacc|].
      cbn [total_weighted_score total_weight source_count] in Hs, Hw, Hc.
      cbn [map sigma fold_right fst snd List.length].
      rewrite Hobs, Hs, Hw, Hc, mean_arithmetic_mean.
      unfold sigma. repeat split; try ring. lia.
Qed.

Lemma collect_scores_length :
  forall (ks : list string) (acc xs : list Q),
    collect_scores r ks acc = Ret xs ->
    (List.length xs <= List.length acc + List.length ks)%nat.
Proof.
  induction ks as [| key ks IH]; intros acc xs H; simpl in H.
  - inversion H. subst. lia.
  - destruct (hgetall r key) as [entry | e]; [|discriminate].
    destruct (dict_get "sentiment_score" entry) as [[score |] |];
      apply IH in H; simpl; try lia.
    rewrite length_app in H. simpl in H. lia.
Qed.

Lemma observations_at_most_50 (source : string) :
  (List.length (observations_of r symbol source) <= 50)%nat.
Proof.
  unfold observations_of, source_scores_of.
  destruct (keys r (pattern_of symbol source)) as [[| k ks] | e];
    cbn [List.length]; try lia.
  destruct (collect_scores r (firstn 50 (k :: ks)) []) as [xs | e] eqn:E;
    cbn [List.length]; [| lia].
  apply collect_scores_length in E.
  pose proof (firstn_le_length 50 (k :: ks)) as Hlen.
  cbn [List.length] in E. lia.
Qed.

End Accumulation.

Lemma Qltb_compat (x y y' : Q) : (y == y')%Q -> Qltb x y = Qltb x y'.
Proof.
  intro H. apply eq_true_iff_eq. rewrite !Qltb_lt. now rewrite H.
Qed.



Lemma aggregate_sentiment_weighted (w : World) (symbol : string)
    (config_data : TradingConfig) (symbol_config : SymbolConfig.t) (r : Redis) :
  config_file w = Ret config_data ->
  dict_get symbol (symbols config_data) = Some symbol_config ->
  SymbolConfig.is_empty symbol_config = false ->
  redis_client w = Some r ->
  reads_succeed r symbol (weights_of config_data symbol_config) ->
  ((0 < sigma_weight r symbol (weights_of config_data symbol_config))%Q ->
   exists score,
     fst (aggregate_sentiment symbol w) = Ret (Some score)
     /\ (score == spec_weighted_score r symbol (weights_of config_data symbol_config))%Q)
  /\ (~ (0 < sigma_weight r symbol (weights_of config_data symbol_config))%Q ->
      fst (aggregate_sentiment symbol w) = Ret None).
Proof.
  intros Hfile Hentry Hnonempty Hclient Hreads.
  destruct (aggregate_sentiment_ret symbol w) as (w' & Hrun & _).
  rewrite Hrun. cbn [fst]. unfold aggregate_result, loaded_config, symbol_config_of.
  rewrite Hfile, Hentry, Hnonempty, Hclient.
  destruct (accumulate_totals r symbol (weights_of config_data symbol_config)
              no_totals Hreads) as (acc & Hacc & Hs & Hw & _).
  rewrite Hacc. cbn [no_totals total_weighted_score total_weight] in Hs, Hw.
  rewrite Qplus_0_l in Hs, Hw.
  rewrite (Qltb_compat 0 _ _ Hw).
  split.
  - intro Hpos. apply Qltb_lt in Hpos. rewrite Hpos.
    eexists. split; [reflexivity|].
    unfold spec_weighted_score. now rewrite Hs, Hw.
  - intro Hnpos.
    destruct (Qltb 0 (sigma_weight r symbol (weights_of config_data symbol_config)))
      eqn:E; [|reflexivity].
    apply Qltb_lt in E. contradiction.
Qed.


Lemma scenario_reads_succeed :
  reads_succeed (redis_with
                   [("sentiment:X:A:*",
                     [("sentiment:X:A:1", [("sentiment_score", Numeric (8 # 10))]);
                      ("sentiment:X:A:2", [("sentiment_score", Numeric (6 # 10))])]);
                    ("sentiment:X:C:*",
                     [("sentiment:X:C:1", [("sentiment_score", Numeric (5 # 10))])])])
    "X" [("A", 4 # 10); ("B", 3 # 10); ("C", 3 # 10)]%Q.
Proof.
  intros source weight Hin. simpl in Hin.
  destruct Hin as [H | [H | [H | []]]]; inversion H; subst;
    eexists; vm_compute; reflexivity.
Defined.



(** ** Persistence *)

Ltac case_scrutinee :=
  match goal with
  | |- context [match ?x with _ => _ end] =>
      match x with
      | context [match _ with _ => _ end] => fail 1
      | _ => destruct x eqn:?
      end
  | |- context [if ?x then _ else _] =>
      match x with
      | context [if _ then _ else _] => fail 1
      | _ => destruct x eqn:?
      end
  end.

Ltac world_simpl :=
  cbn [redis_client postgres_conn alpaca_api config config_file ticker_info
       ticker_calls log calls set_postgres_conn set_alpaca_api set_ticker_calls
       set_log set_calls fst snd option_map
       submit_order_reply get_order_reply list_positions_reply submitted
       set_submitted].

Ltac world_simpl_in H :=
  cbn [redis_client postgres_conn alpaca_api config config_file ticker_info
       ticker_calls log calls set_postgres_conn set_alpaca_api set_ticker_calls
       set_log set_calls fst snd option_map] in H.

Ltac exists_world :=
  match goal with
  | |- exists w' : World, _ => eexists
  end.

Lemma store_trade_ret (symbol side : string) (quantity : Z) (price total_amount : Q)
    (sentiment_score : option Q) (alpaca_order_id : string) (w : World) :
  exists w',
    store_trade symbol side quantity price total_amount sentiment_score
      alpaca_order_id w = (Ret tt, w')
    /\ postgres_conn w'
       = option_map
           (after_store (Trade.mk symbol side quantity price total_amount
                           sentiment_score alpaca_order_id "FILLED"))
           (postgres_conn w)
    /\ calls w' = calls w
    /\ alpaca_api w' = alpaca_api w
    /\ ticker_calls w' = ticker_calls w.
Proof.
  unfold store_trade, after_store, try_except, bind, get, on_postgres, logger, ret.
  world_simpl.
  destruct (postgres_conn w) as [pg|] eqn:Hpg; world_simpl.
  - rewrite Hpg.
    destruct (insert_trade _ pg) as [[[] | e] pg1] eqn:Hins; world_simpl.
    + destruct (commit pg1) as [[[] | e] pg2] eqn:Hcommit; world_simpl;
        (eexists; split; [reflexivity | world_simpl; auto]).
    + eexists; split; [reflexivity | world_simpl; auto].
  - eexists; split; [reflexivity | auto].
Qed.

(** ** Order execution *)

Ltac run_model :=
  unfold execute_trade, store_trade, load_trading_config, regular_market_price,
    submit_order, get_order, on_postgres, record_call, logger,
    try_except, bind, get, lift, ret, raise;
  world_simpl.

Lemma Qltb_false_le (x y : Q) : Qltb x y = false <-> (y <= x)%Q.
Proof.
  unfold Qltb. rewrite negb_false_iff. apply Qle_bool_iff.
Qed.

Lemma Qeq_bool_false (x y : Q) : ~ (x == y)%Q -> Qeq_bool x y = false.
Proof.
  intro H. destruct (Qeq_bool x y) eqn:E; [|reflexivity].
  apply Qeq_bool_iff in E. contradiction.
Qed.





Lemma insert_trade_raise_trades (row : Trade.t) (pg pg1 : Postgres) (e : exn) :
  insert_trade row pg = (Raise e, pg1) -> trades pg1 = trades pg.
Proof.
  unfold insert_trade, statement.
  destruct (server_up pg), (tx_aborted pg),
    (trades_unique_order_id pg && has_order_id (Trade.alpaca_order_id row) (trades pg));
    cbn [negb]; intro H; inversion H; reflexivity.
Qed.



(** ** Idempotent persistence *)

Lemma has_order_id_count (order_id : string) (ts : list Trade.t) :
  has_order_id order_id ts = negb (order_id_count order_id ts =? 0)%nat.
Proof.
  unfold has_order_id, order_id_count.
  induction ts as [| t ts IH]; cbn [existsb filter]; [reflexivity|].
  destruct (String.eqb (Trade.alpaca_order_id t) order_id); cbn [orb List.length].
  - reflexivity.
  - exact IH.
Qed.

Lemma after_store_trades (row : Trade.t) (pg : Postgres) :
  trades_unique_order_id pg = true ->
  trades (after_store row pg)
  = if server_up pg && negb (tx_aborted pg)
       && negb (has_order_id (Trade.alpaca_order_id row) (trades pg))
    then row :: trades pg
    else trades pg.
Proof.
  intro Hunique. unfold after_store, insert_trade, statement, commit.
  rewrite Hunique.
  destruct (server_up pg) eqn:Hup, (tx_aborted pg) eqn:Hab,
    (has_order_id (Trade.alpaca_order_id row) (trades pg));
    cbn [negb andb snd trades set_trades set_tx_aborted server_up];
    rewrite ?Hup; reflexivity.
Qed.

Lemma after_store_unique (row : Trade.t) (pg : Postgres) :
  trades_unique_order_id (after_store row pg) = trades_unique_order_id pg.
Proof.
  unfold after_store, insert_trade, statement, commit.
  destruct (server_up pg) eqn:Hup, (tx_aborted pg),
    (trades_unique_order_id pg && has_order_id (Trade.alpaca_order_id row) (trades pg));
    cbn [negb snd trades_unique_order_id set_trades set_tx_aborted server_up];
    rewrite ?Hup; reflexivity.
Qed.

Lemma after_store_server_up (row : Trade.t) (pg : Postgres) :
  server_up (after_store row pg) = server_up pg.
Proof.
  unfold after_store, insert_trade, statement, commit.
  destruct (server_up pg) eqn:Hup, (tx_aborted pg),
    (trades_unique_order_id pg && has_order_id (Trade.alpaca_order_id row) (trades pg));
    cbn [negb snd set_trades set_tx_aborted server_up];
    rewrite ?Hup; cbn [negb snd set_trades set_tx_aborted server_up]; auto.
Qed.

Lemma after_store_stays_aborted (row : Trade.t) (pg : Postgres) :
  server_up pg = true -> tx_aborted pg = true ->
  tx_aborted (after_store row pg) = true.
Proof.
  intros Hup Hab. unfold after_store, insert_trade, statement.
  rewrite Hup, Hab. cbn [negb]. exact Hab.
Qed.



(** Without the UNIQUE constraint nothing in [store_trade] stops the second
    insert: the idempotence above rests on the table declaration alone. *)
Remark store_trade_twice_without_constraint :
  exists w1 w2 pg2,
    store_trade "AAPL" "BUY" 10 100 1000 None "order-1" unconstrained_world = (Ret tt, w1)
    /\ store_trade "AAPL" "BUY" 10 100 1000 None "order-1" w1 = (Ret tt, w2)
    /\ postgres_conn w2 = Some pg2
    /\ order_id_count "order-1" (trades pg2) = 2%nat.
Proof.
  do 3 eexists. repeat split; reflexivity.
Qed.

(** ** Decision logic *)

Lemma execute_trade_ret (symbol side : string) (quantity : Z)
    (sentiment_score : option Q) (w : World) :
  exists res w',
    execute_trade symbol side quantity sentiment_score w = (Ret res, w')
    /\ calls w' = CallExecute symbol side quantity sentiment_score :: calls w.
Proof.
  run_model.
  repeat (case_scrutinee; world_simpl);
    (do 2 eexists; split; [reflexivity | world_simpl; reflexivity]).
Qed.

Lemma trade_on_sentiment_neutral (w : World) (config_data : TradingConfig)
    (current_positions : list PortfolioPosition.t) (symbol : string) (score : Q) :
  Qltb (threshold_for w config_data symbol) score = false ->
  Qltb score (- threshold_for w config_data symbol) = false ->
  trade_on_sentiment config_data current_positions symbol score w = (Ret tt, w).
Proof.
  unfold threshold_for, trade_on_sentiment, bind, get, ret. intros H1 H2.
  now rewrite H1, H2.
Qed.

Lemma trade_on_sentiment_buy (w : World) (config_data : TradingConfig)
    (current_positions : list PortfolioPosition.t) (symbol : string) (score price : Q) :
  (threshold_for w config_data symbol < score)%Q ->
  in_positions symbol current_positions = false ->
  ticker_info w (ticker_calls w) symbol = Ret (Some (PyNum price)) ->
  (0 < price)%Q ->
  ((0 < buy_quantity (cap_for w config_data symbol) price)%Z ->
   exists w',
     trade_on_sentiment config_data current_positions symbol score w = (Ret tt, w')
     /\ calls w'
        = CallExecute symbol "BUY" (buy_quantity (cap_for w config_data symbol) price)
            (Some score) :: calls w)
  /\ ((buy_quantity (cap_for w config_data symbol) price <= 0)%Z ->
      exists w',
        trade_on_sentiment config_data current_positions symbol score w = (Ret tt, w')
        /\ calls w' = calls w
        /\ alpaca_api w' = alpaca_api w
        /\ postgres_conn w' = postgres_conn w).
Proof.
  unfold threshold_for, cap_for. intros Hscore Hpos Hprice Hp.
  apply Qltb_lt in Hscore, Hp.
  destruct (execute_trade_ret symbol "BUY"
              (buy_quantity
                 (max_position_size_of (config w) (symbol_config_of config_data symbol))
                 price) (Some score) (set_ticker_calls (S (ticker_calls w)) w))
    as (res & w2 & Hrun & Hcalls).
  split; intro Hq;
    unfold trade_on_sentiment, bind, get, regular_market_price, logger, ret;
    rewrite Hscore, Hpos; cbn [negb]; rewrite Hprice, Hp.
  - apply Z.ltb_lt in Hq.
    destruct (0 <? buy_quantity _ price)%Z; [| discriminate].
    rewrite Hrun.
    eexists. split; [reflexivity|]. world_simpl. exact Hcalls.
  - apply Z.ltb_ge in Hq.
    destruct (0 <? buy_quantity _ price)%Z; [discriminate |].
    eexists. split; [reflexivity|]. world_simpl. auto.
Qed.

Lemma trade_on_sentiment_calls (w : World) (config_data : TradingConfig)
    (current_positions : list PortfolioPosition.t) (symbol : string) (score : Q) :
  exists o w',
    trade_on_sentiment config_data current_positions symbol score w = (o, w')
    /\ (calls w' = calls w
        \/ (exists quantity,
               calls w' = CallExecute symbol "BUY" quantity (Some score) :: calls w
               /\ (threshold_for w config_data symbol < score)%Q)
        \/ (exists quantity,
               calls w' = CallExecute symbol "SELL" quantity (Some score) :: calls w
               /\ (score < - threshold_for w config_data symbol)%Q)).
Proof.
  unfold threshold_for, trade_on_sentiment, bind at 1, get at 1.
  destruct (Qltb _ score) eqn:Hbuy.
  - destruct (negb (in_positions symbol current_positions)).
    + unfold bind at 1, regular_market_price.
      destruct (ticker_info w (ticker_calls w) symbol) as [[[| price] |] | e].
      * do 2 eexists. split; [reflexivity|]. left. reflexivity.
      * destruct (Qltb 0 price).
        -- destruct (0 <? buy_quantity _ price)%Z.
           ++ match goal with
              | |- context [execute_trade ?s ?sd ?q ?sc] =>
                  destruct (execute_trade_ret s sd q sc
                              (set_ticker_calls (S (ticker_calls w)) w))
                    as (res & w2 & Hrun & Hcalls)
              end.
              unfold bind. rewrite Hrun. unfold logger.
              do 2 eexists. split; [reflexivity|]. right. left.
              eexists. split; [exact Hcalls|]. now apply Qltb_lt.
           ++ do 2 eexists. split; [reflexivity|]. left. reflexivity.
        -- do 2 eexists. split; [reflexivity|]. left. reflexivity.
      * destruct (Qltb 0 0).
        -- destruct (0 <? buy_quantity _ 0)%Z.
           ++ match goal with
              | |- context [execute_trade ?s ?sd ?q ?sc] =>
                  destruct (execute_trade_ret s sd q sc
                              (set_ticker_calls (S (ticker_calls w)) w))
                    as (res & w2 & Hrun & Hcalls)
              end.
              unfold bind. rewrite Hrun. unfold logger.
              do 2 eexists. split; [reflexivity|]. right. left.
              eexists. split; [exact Hcalls|]. now apply Qltb_lt.
           ++ do 2 eexists. split; [reflexivity|]. left. reflexivity.
        -- do 2 eexists. split; [reflexivity|]. left. reflexivity.
      * do 2 eexists. split; [reflexivity|]. left. reflexivity.
    + do 2 eexists. split; [reflexivity|]. left. reflexivity.
  - destruct (Qltb score _) eqn:Hsell.
    + destruct (in_positions symbol current_positions).
      * destruct (find_position symbol current_positions) as [position|].
        -- destruct (0 <? PortfolioPosition.quantity position)%Z.
           ++ destruct (execute_trade_ret symbol "SELL"
                          (PortfolioPosition.quantity position) (Some score) w)
                as (res & w2 & Hrun & Hcalls).
              unfold bind. rewrite Hrun. unfold logger.
              do 2 eexists. split; [reflexivity|]. right. right.
              eexists. split; [exact Hcalls|]. now apply Qltb_lt.
           ++ do 2 eexists. split; [reflexivity|]. left. reflexivity.
        -- do 2 eexists. split; [reflexivity|]. left. reflexivity.
      * do 2 eexists. split; [reflexivity|]. left. reflexivity.
    + do 2 eexists. split; [reflexivity|]. left. reflexivity.
Qed.

Lemma cons_neq_self {A : Type} (x : A) (l : list A) : l <> x :: l.
Proof.
  intro H. apply (f_equal (@List.length A)) in H. cbn [List.length] in H. lia.
Qed.

(** C5.  The threshold comparisons are strict.  With a threshold that is
    not negative, a score equal to the threshold or to its negation makes
    the loop body do nothing at all; and whenever the body does call
    [execute_trade], a BUY comes with a score strictly above the threshold
    and a SELL with a score strictly below its negation. *)
Theorem threshold_comparisons_strict (w : World) (config_data : TradingConfig)
    (current_positions : list PortfolioPosition.t) (symbol : string) (score : Q) :
  (0 <= threshold_for w config_data symbol)%Q ->
  ((score == threshold_for w config_data symbol)%Q
   \/ (score == - threshold_for w config_data symbol)%Q ->
   trade_on_sentiment config_data current_positions symbol score w = (Ret tt, w))
  /\ (forall o w' side quantity sentiment_score,
        trade_on_sentiment config_data current_positions symbol score w = (o, w') ->
        calls w' = CallExecute symbol side quantity sentiment_score :: calls w ->
        (side = "BUY" /\ (threshold_for w config_data symbol < score)%Q)
        \/ (side = "SELL" /\ (score < - threshold_for w config_data symbol)%Q)).
Proof.
  intro Hthr. split.
  - intro Heq. apply trade_on_sentiment_neutral.
    + apply Qltb_false_le. destruct Heq as [Heq | Heq]; rewrite Heq; lra.
    + apply Qltb_false_le. destruct Heq as [Heq | Heq]; rewrite Heq; lra.
  - intros o w' side quantity sentiment_score Hrun Hcalls.
    destruct (trade_on_sentiment_calls w config_data current_positions symbol score)
      as (o0 & w0 & Hrun0 & Hcases).
    rewrite Hrun in Hrun0. inversion Hrun0; subst o0 w0.
    destruct Hcases as [Hsame | [(q & Hbuy & Hlt) | (q & Hsell & Hlt)]].
    + rewrite Hsame in Hcalls. exfalso. exact (cons_neq_self _ _ Hcalls).
    + rewrite Hbuy in Hcalls. inversion Hcalls. left. now split.
    + rewrite Hsell in Hcalls. inversion Hcalls. right. now split.
Qed.

Lemma threshold_comparisons_strict_boundary :
  trade_on_sentiment default_trading_config [] "AAPL" (3 # 5) accepting_world
  = (Ret tt, accepting_world).
Proof.
  apply (threshold_comparisons_strict accepting_world default_trading_config []
           "AAPL" (3 # 5)).
  - vm_compute. intro H. discriminate H.
  - left. reflexivity.
Defined.

Lemma py_int_floor (x : Q) : (0 <= x)%Q -> py_int x = Qfloor x.
Proof.
  destruct x as [n d]. unfold Qle, py_int, Qfloor. cbn [Qnum Qden].
  intro H. apply Z.quot_div_nonneg; lia.
Qed.




(** ** Configuration fallback *)

Lemma aggregate_sentiment_unconfigured (w : World) (symbol : string) :
  SymbolConfig.is_empty (symbol_config_of (loaded_config w) symbol) = true ->
  fst (aggregate_sentiment symbol w) = Ret None.
Proof.
  intro Hempty.
  destruct (aggregate_sentiment_ret symbol w) as (w' & Hrun & _).
  rewrite Hrun. cbn [fst]. unfold aggregate_result. now rewrite Hempty.
Qed.


Lemma fallback_reads_succeed :
  reads_succeed (redis_with
                   [("sentiment:AAPL:twitter:*",
                     [("sentiment:AAPL:twitter:1", [("sentiment_score", Numeric (9 # 10))])]);
                    ("sentiment:MSFT:twitter:*",
                     [("sentiment:MSFT:twitter:1", [("sentiment_score", Numeric (9 # 10))])])])
    "AAPL" [("twitter", 4 # 10)]%Q.
Proof.
  intros source weight Hin. simpl in Hin.
  destruct Hin as [H | []]; inversion H; subst. eexists; vm_compute; reflexivity.
Defined.



(** ** Control loop *)

Lemma aggregated_app (cs1 cs2 : list Call) :
  aggregated (cs1 ++ cs2) = (aggregated cs2 ++ aggregated cs1)%list.
Proof.
  induction cs1 as [| c cs1 IH]; cbn [aggregated app].
  - now rewrite app_nil_r.
  - destruct c; rewrite IH; try reflexivity. now rewrite app_assoc.
Qed.

Lemma get_portfolio_positions_ret (w : World) :
  exists positions w',
    get_portfolio_positions w = (Ret positions, w') /\ calls w' = calls w.
Proof.
  unfold get_portfolio_positions, list_positions, try_except, bind, get, lift,
    logger, ret.
  world_simpl.
  destruct (alpaca_api w) as [a|] eqn:Ha; world_simpl; rewrite ?Ha.
  - destruct (list_positions_reply a (submitted a)) as [positions | e]; world_simpl.
    + destruct (convert_positions positions []) as [converted | e];
        do 2 eexists; split; reflexivity.
    + do 2 eexists; split; reflexivity.
  - do 2 eexists; split; reflexivity.
Qed.

Lemma for_each_upsert_calls (positions : list PortfolioPosition.t) :
  forall (w : World) (o : outcome unit) (w' : World),
    for_each positions (fun position => on_postgres (upsert_position position)) w
    = (o, w') ->
    calls w' = calls w /\ log w' = log w.
Proof.
  induction positions as [| p positions IH]; intros w o w' H; cbn [for_each] in H.
  - inversion H. now split.
  - unfold bind, on_postgres in H.
    destruct (postgres_conn w) as [pg|].
    + destruct (upsert_position p pg) as [[[] | e] pg1].
      * apply IH in H. world_simpl_in H. exact H.
      * inversion H. now split.
    + inversion H. now split.
Qed.

Lemma update_portfolio_positions_ret (w : World) :
  exists w',
    update_portfolio_positions w = (Ret tt, w')
    /\ calls w' = CallReconcile :: calls w.
Proof.
  unfold update_portfolio_positions.
  unfold bind at 1, record_call, try_except.
  set (w0 := set_calls (CallReconcile :: calls w) w).
  unfold bind at 1.
  destruct (get_portfolio_positions_ret w0) as (positions & w1 & Hget & Hcalls1).
  rewrite Hget. unfold bind at 1, get.
  destruct (postgres_conn w1) as [pg|].
  - unfold bind at 1.
    destruct (for_each positions _ w1) as [[[] | e] w2] eqn:Hloop;
      apply for_each_upsert_calls in Hloop; destruct Hloop as [Hcalls2 _].
    + unfold bind, on_postgres, logger.
      destruct (postgres_conn w2) as [pg2|].
      * destruct (commit pg2) as [[[] | e] pg3];
          (eexists; split;
           [reflexivity | world_simpl; rewrite Hcalls2, Hcalls1; reflexivity]).
      * eexists; split;
          [reflexivity | world_simpl; rewrite Hcalls2, Hcalls1; reflexivity].
    + unfold logger. eexists; split;
        [reflexivity | world_simpl; rewrite Hcalls2, Hcalls1; reflexivity].
  - unfold ret. eexists; split; [reflexivity | rewrite Hcalls1; reflexivity].
Qed.

Lemma process_symbol_ret (config_data : TradingConfig)
    (current_positions : list PortfolioPosition.t) (symbol : string) (w : World) :
  exists w' new,
    process_symbol config_data current_positions symbol w = (Ret tt, w')
    /\ calls w' = (new ++ calls w)%list
    /\ aggregated new = [symbol].
Proof.
  unfold process_symbol, try_except. unfold bind at 1.
  destruct (aggregate_sentiment_ret symbol w) as (w1 & Hagg & Hcalls1 & _).
  rewrite Hagg.
  destruct (aggregate_result w symbol) as [score|].
  - destruct (trade_on_sentiment_calls w1 config_data current_positions symbol score)
      as (o & w2 & Hrun & Hcases).
    rewrite Hrun.
    assert (Hnew : exists new, calls w2 = (new ++ calls w)%list
                               /\ aggregated new = [symbol]).
    { destruct Hcases as [Hsame | [(q & Hbuy & _) | (q & Hsell & _)]].
      - exists [CallAggregate symbol]. split; [|reflexivity].
        rewrite Hsame, Hcalls1. reflexivity.
      - exists [CallExecute symbol "BUY" q (Some score); CallAggregate symbol].
        split; [|reflexivity]. rewrite Hbuy, Hcalls1. reflexivity.
      - exists [CallExecute symbol "SELL" q (Some score); CallAggregate symbol].
        split; [|reflexivity]. rewrite Hsell, Hcalls1. reflexivity. }
    destruct Hnew as (new & Hcalls2 & Hnew).
    destruct o as [[] | e]; unfold logger;
      exists_world; exists new; (split; [reflexivity | world_simpl; now split]).
  - unfold ret. exists w1, [CallAggregate symbol].
    split; [reflexivity|]. split; [exact Hcalls1 | reflexivity].
Qed.

Lemma for_each_process_symbol (config_data : TradingConfig)
    (current_positions : list PortfolioPosition.t) (symbols : list string) :
  forall w : World,
    exists w' new,
      for_each symbols (process_symbol config_data current_positions) w = (Ret tt, w')
      /\ calls w' = (new ++ calls w)%list
      /\ aggregated new = symbols.
Proof.
  induction symbols as [| symbol symbols IH]; intro w; cbn [for_each].
  - exists w, []. repeat split.
  - destruct (process_symbol_ret config_data current_positions symbol w)
      as (w1 & new1 & Hrun1 & Hcalls1 & Hagg1).
    destruct (IH w1) as (w2 & new2 & Hrun2 & Hcalls2 & Hagg2).
    exists w2, (new2 ++ new1)%list.
    unfold bind. rewrite Hrun1. split; [exact Hrun2|]. split.
    + rewrite Hcalls2, Hcalls1. now rewrite app_assoc.
    + rewrite aggregated_app, Hagg1, Hagg2. reflexivity.
Qed.



(** The cycle on [failing_price_world], step by step: the price lookup for
    AAPL raises and is logged, MSFT is still bought, the reconciliation
    pass closes the cycle. *)
Example cycle_with_failing_price :
  fst (run_trading_bot failing_price_world) = Ret tt
  /\ calls (snd (run_trading_bot failing_price_world))
     = [CallReconcile; CallExecute "MSFT" "BUY" 100 (Some (9 # 10));
        CallAggregate "MSFT"; CallAggregate "AAPL"]
  /\ map event (log (snd (run_trading_bot failing_price_world)))
     = ["Trading bot iteration completed"; "Portfolio positions updated";
        "Buy signal triggered"; "Trade executed successfully";
        "Trade stored in database"; "Sentiment aggregated";
        "Error processing symbol"; "Sentiment aggregated";
        "Running trading bot iteration"]
  /\ option_map submitted (alpaca_api (snd (run_trading_bot failing_price_world)))
     = Some [order_request "MSFT" 100 "BUY"].
Proof.
  repeat split; vm_compute; reflexivity.
Qed.

(** With no instrument configured the cycle returns before the
    reconciliation pass. *)
Remark run_trading_bot_no_symbols (w : World) :
  symbols (loaded_config w) = [] ->
  exists w', run_trading_bot w = (Ret tt, w') /\ calls w' = calls w.
Proof.
  intro Hnone.
  unfold run_trading_bot, try_except. unfold bind at 1, logger at 1.
  set (w0 := set_log _ w).
  unfold bind at 1.
  destruct (load_trading_config_ret w0) as (w1 & Hload & Hcalls1 & _).
  rewrite Hload.
  assert (Hcfg : loaded_config w0 = loaded_config w) by reflexivity.
  rewrite Hcfg, Hnone. cbn [map]. unfold logger.
  eexists. split; [reflexivity|]. world_simpl. rewrite Hcalls1. reflexivity.
Qed.

(** ** Further facts about the modelled code *)

(** An observed score of zero is a score: it comes back as [Some 0], not as
    the "no signal" value. *)
Example observed_zero_is_a_score :
  exists score,
    fst (aggregate_sentiment "AAPL" zero_score_world) = Ret (Some score)
    /\ (score == 0)%Q.
Proof.
  eexists. split; [vm_compute; reflexivity | reflexivity].
Qed.

(** X7.  [execute_trade] reaches the brokerage only with a fetched price
    at which the notional is within the cap: if the list of submitted
    orders has changed, the price lookup gave a number and quantity × price
    is at most the instrument's max position size. *)
Lemma execute_trade_submits_within_cap (w : World) (symbol side : string)
    (quantity : Z) (sentiment_score : option Q) (a a' : Alpaca) :
  alpaca_api w = Some a ->
  alpaca_api (snd (execute_trade symbol side quantity sentiment_score w)) = Some a' ->
  submitted a' <> submitted a ->
  exists price,
    ticker_info w (ticker_calls w) symbol = Ret (Some (PyNum price))
    /\ (inject_Z quantity * price
        <= max_position_size_of (config w) (symbol_config_of (loaded_config w) symbol))%Q.
Proof.
  intros Ha Hafter Hchanged.
  unfold loaded_config. revert Hafter. run_model. rewrite Ha. world_simpl.
  destruct (ticker_info w (ticker_calls w) symbol) as [[[| price] |] | e];
    world_simpl; try change (Qeq_bool 0 0) with true; world_simpl;
    try (rewrite Ha; intro H; inversion H; subst; contradiction).
  destruct (Qeq_bool price 0); world_simpl;
    try (rewrite Ha; intro H; inversion H; subst; contradiction).
  destruct (config_file w) as [config_data | e'] eqn:Hfile; world_simpl;
    rewrite ?Hfile; world_simpl;
    (destruct (Qltb _ (inject_Z quantity * price)) eqn:Hcap; world_simpl;
     [ rewrite Ha; intro H; inversion H; subst; contradiction
     | intros _; exists price; split;
       [reflexivity | now apply Qltb_false_le] ]).
Qed.

(** After a write that the UNIQUE constraint refused, the connection stays
    in its aborted transaction: the next trade, under a fresh order id, is
    not recorded either. *)
Remark store_trade_after_duplicate :
  exists w1 w2 w3 pg3,
    store_trade "AAPL" "BUY" 10 100 1000 None "order-1" accepting_world = (Ret tt, w1)
    /\ store_trade "AAPL" "BUY" 10 100 1000 None "order-1" w1 = (Ret tt, w2)
    /\ store_trade "MSFT" "BUY" 5 100 500 None "order-2" w2 = (Ret tt, w3)
    /\ postgres_conn w3 = Some pg3
    /\ order_id_count "order-2" (trades pg3) = 0%nat.
Proof.
  do 4 eexists. repeat split; reflexivity.
Qed.

(** * Further properties of the trading service *)

(** ** Reading and weighting observations *)

Section Observations.

Variable r : Redis.

Lemma collect_scores_parsed :
  forall (ks : list string) (acc : list Q),
    (forall key, In key ks -> exists entry, hgetall r key = Ret entry) ->
    collect_scores r ks acc = Ret (acc ++ flat_map (entry_scores r) ks)%list.
Proof.
  induction ks as [| key ks IH]; intros acc Hreads; cbn [collect_scores flat_map].
  - now rewrite app_nil_r.
  - destruct (Hreads key (or_introl eq_refl)) as [entry Hentry].
    assert (Hrest : forall k, In k ks -> exists e, hgetall r k = Ret e).
    { intros k Hin. apply Hreads. now right. }
    unfold entry_scores at 1. rewrite Hentry.
    destruct (dict_get "sentiment_score" entry) as [[score |] |];
      rewrite (IH _ Hrest); cbn [app]; try reflexivity.
    now rewrite <- app_assoc.
Qed.

Lemma sigma_bounds (lo hi : Q) (xs : list Q) :
  (forall x, In x xs -> lo <= x /\ x <= hi)%Q ->
  (lo * inject_Z (Z.of_nat (List.length xs)) <= sigma xs
   /\ sigma xs <= hi * inject_Z (Z.of_nat (List.length xs)))%Q.
Proof.
  induction xs as [| x xs IH]; intro Hin.
  - cbn [List.length sigma fold_right Z.of_nat]. change (inject_Z 0) with 0%Q.
    split; lra.
  - destruct (Hin x (or_introl eq_refl)) as [Hlo Hhi].
    destruct IH as [IHlo IHhi]; [intros y Hy; apply Hin; now right|].
    cbn [List.length sigma fold_right]. fold (sigma xs).
    rewrite Nat2Z.inj_succ. unfold Z.succ. rewrite inject_Z_plus.
    change (inject_Z 1) with 1%Q.
    set (n := inject_Z (Z.of_nat (List.length xs))) in *.
    setoid_replace (lo * (n + 1))%Q with (lo * n + lo)%Q by ring.
    setoid_replace (hi * (n + 1))%Q with (hi * n + hi)%Q by ring.
    set (a := (lo * n)%Q) in *. set (b := (hi * n)%Q) in *.
    split; lra.
Qed.

Lemma arithmetic_mean_bounds (lo hi : Q) (xs : list Q) :
  xs <> [] ->
  (forall x, In x xs -> lo <= x /\ x <= hi)%Q ->
  (lo <= arithmetic_mean xs /\ arithmetic_mean xs <= hi)%Q.
Proof.
  intros Hne Hin. destruct (sigma_bounds lo hi xs Hin) as [Hlo Hhi].
  assert (Hn : (0 < inject_Z (Z.of_nat (List.length xs)))%Q).
  { destruct xs as [| x xs]; [contradiction|].
    cbn [List.length]. rewrite Nat2Z.inj_succ.
    change 0%Q with (inject_Z 0). rewrite <- Zlt_Qlt. lia. }
  unfold arithmetic_mean. split.
  - apply Qle_shift_div_l; assumption.
  - apply Qle_shift_div_r; assumption.
Qed.

End Observations.

(** X1.  The scores read for a source are the well-formed
    [sentiment_score] fields of its first 50 keys, in key order: an entry
    without the field or with a malformed score adds nothing, and no key
    after the 50th is looked at. *)
Theorem source_scores_in_key_order (r : Redis) (symbol source : string)
    (ks : list string) :
  keys r (pattern_of symbol source) = Ret ks ->
  (forall key, In key (firstn 50 ks) -> exists entry, hgetall r key = Ret entry) ->
  source_scores_of r symbol source = Ret (flat_map (entry_scores r) (firstn 50 ks)).
Proof.
  intros Hkeys Hreads. unfold source_scores_of. rewrite Hkeys.
  destruct ks as [| k ks]; [reflexivity|].
  now rewrite (collect_scores_parsed r _ [] Hreads).
Qed.

Lemma source_scores_in_key_order_mixed :
  source_scores_of mixed_redis "X" "A" = Ret [8 # 10; -2 # 10]%Q.
Proof.
  apply (source_scores_in_key_order mixed_redis "X" "A"
           ["sentiment:X:A:1"; "sentiment:X:A:2"; "sentiment:X:A:3"; "sentiment:X:A:4"]).
  - reflexivity.
  - intros key _. eexists. reflexivity.
Defined.

Lemma accumulate_raise (r : Redis) (symbol source : string) (weight : Q) (e : exn) :
  forall (ws : list (string * Q)) (acc : Totals),
    In (source, weight) ws ->
    source_scores_of r symbol source = Raise e ->
    exists e', accumulate r symbol ws acc = Raise e'.
Proof.
  induction ws as [| [source' weight'] ws IH]; intros acc Hin Hraise; [contradiction|].
  cbn [accumulate].
  destruct Hin as [Heq | Hin].
  - inversion Heq; subst. rewrite Hraise. now exists e.
  - destruct (source_scores_of r symbol source') as [[| x xs] | e'].
    + now apply IH.
    + now apply IH.
    + now exists e'.
Qed.



Lemma weighted_sum_bounds (lo hi : Q) (mean_of : string * Q -> Q)
    (l : list (string * Q)) :
  (forall sw, In sw l -> 0 <= snd sw /\ lo <= mean_of sw /\ mean_of sw <= hi)%Q ->
  (lo * sigma (map snd l) <= sigma (map (fun sw => mean_of sw * snd sw) l)
   /\ sigma (map (fun sw => mean_of sw * snd sw) l) <= hi * sigma (map snd l))%Q.
Proof.
  induction l as [| sw l IH]; intro Hall.
  - cbn [map sigma fold_right]. split; lra.
  - destruct (Hall sw (or_introl eq_refl)) as (Hw & Hlo & Hhi).
    destruct IH as [IHlo IHhi]; [intros y Hy; apply Hall; now right|].
    cbn [map sigma fold_right].
    fold (sigma (map snd l)).
    fold (sigma (map (fun sw0 => mean_of sw0 * snd sw0) l)).
    assert (H1 : (lo * snd sw <= mean_of sw * snd sw)%Q)
      by (apply Qmult_le_compat_r; assumption).
    assert (H2 : (mean_of sw * snd sw <= hi * snd sw)%Q)
      by (apply Qmult_le_compat_r; assumption).
    setoid_replace (lo * (snd sw + sigma (map snd l)))%Q
      with (lo * snd sw + lo * sigma (map snd l))%Q by ring.
    setoid_replace (hi * (snd sw + sigma (map snd l)))%Q
      with (hi * snd sw + hi * sigma (map snd l))%Q by ring.
    set (a := (lo * snd sw)%Q) in *. set (b := (hi * snd sw)%Q) in *.
    set (c := (mean_of sw * snd sw)%Q) in *.
    set (d := (lo * sigma (map snd l))%Q) in *.
    set (f := (hi * sigma (map snd l))%Q) in *.
    split; lra.
Qed.



(** ** Decisions of the loop body *)

Lemma find_position_in_positions (symbol : string)
    (current_positions : list PortfolioPosition.t) (position : PortfolioPosition.t) :
  find_position symbol current_positions = Some position ->
  in_positions symbol current_positions = true.
Proof.
  unfold find_position, in_positions. intro Hfind.
  apply find_some in Hfind. destruct Hfind as [Hin Heq].
  apply existsb_exists. now exists position.
Qed.



(** X5.  The loop body never buys an instrument that is already held and
    never sells one that is not: with a score above the threshold and a
    position, or with a score not above it and no position, it does
    nothing. *)
Theorem position_gates_the_decision (w : World) (config_data : TradingConfig)
    (current_positions : list PortfolioPosition.t) (symbol : string) (score : Q) :
  ((threshold_for w config_data symbol < score)%Q
   /\ in_positions symbol current_positions = true)
  \/ (~ (threshold_for w config_data symbol < score)%Q
      /\ in_positions symbol current_positions = false) ->
  trade_on_sentiment config_data current_positions symbol score w = (Ret tt, w).
Proof.
  unfold threshold_for, trade_on_sentiment, bind, get, ret.
  intros [[Hbuy Hheld] | [Hnobuy Hfree]].
  - apply Qltb_lt in Hbuy. now rewrite Hbuy, Hheld.
  - destruct (Qltb _ score) eqn:E.
    + apply Qltb_lt in E. contradiction.
    + rewrite Hfree. now destruct (Qltb score _).
Qed.

Lemma position_gates_the_decision_held :
  trade_on_sentiment default_trading_config [held_position] "Y" (9 # 10) accepting_world
  = (Ret tt, accepting_world).
Proof.
  apply (position_gates_the_decision accepting_world default_trading_config
           [held_position] "Y" (9 # 10)).
  left. split; reflexivity.
Defined.



(** ** Order execution: the remaining paths *)

Lemma execute_trade_submits_within_cap_accepted :
  exists price,
    ticker_info accepting_world (ticker_calls accepting_world) "AAPL"
    = Ret (Some (PyNum price))
    /\ (inject_Z 10 * price
        <= max_position_size_of (config accepting_world)
             (symbol_config_of (loaded_config accepting_world) "AAPL"))%Q.
Proof.
  apply (execute_trade_submits_within_cap accepting_world "AAPL" "BUY" 10 None
           accepting_broker
           (set_submitted [order_request "AAPL" 10 "BUY"] accepting_broker)).
  - reflexivity.
  - reflexivity.
  - intro H. discriminate H.
Defined.





(** ** Portfolio and its mirror *)

Lemma convert_positions_parsed :
  forall (positions : list Position.t) (acc : list PortfolioPosition.t),
    convert_positions positions acc
    = if forallb parses positions
      then Ret (acc ++ map mirrored positions)%list
      else Raise ValueError.
Proof.
  induction positions as [| position positions IH]; intro acc;
    cbn [convert_positions forallb map].
  - now rewrite app_nil_r.
  - unfold parses at 1, mirrored at 1.
    destruct (Position.qty position) as [quantity|]; cbn [andb]; [|reflexivity].
    rewrite IH. destruct (forallb parses positions); [|reflexivity].
    now rewrite <- app_assoc.
Qed.

Lemma get_portfolio_positions_reported (w : World) :
  exists w',
    get_portfolio_positions w = (Ret (reported_positions w), w')
    /\ calls w' = calls w
    /\ same_services w w'.
Proof.
  unfold get_portfolio_positions, reported_positions, list_positions, try_except,
    bind, get, lift, logger, ret.
  world_simpl.
  destruct (alpaca_api w) as [a|] eqn:Ha; world_simpl; rewrite ?Ha.
  - destruct (list_positions_reply a (submitted a)) as [positions | e]; world_simpl.
    + rewrite convert_positions_parsed.
      destruct (forallb parses positions);
        (eexists; split; [reflexivity | split; [reflexivity | repeat split]]).
    + eexists; split; [reflexivity | split; [reflexivity | repeat split]].
  - eexists; split; [reflexivity | split; [reflexivity | repeat split]].
Qed.


Example one_bad_quantity_hides_the_portfolio :
  fst (get_portfolio_positions
         (world_of None None (Some fractional_broker) no_config no_prices))
  = Ret [].
Proof. reflexivity. Qed.

Section Mirror.

Lemma upsert_symbols (p : PortfolioPosition.t) (rows : list PortfolioPosition.t) :
  mirror_symbols (upsert p rows)
  = if existsb (fun r => String.eqb (PortfolioPosition.symbol r)
                           (PortfolioPosition.symbol p)) rows
    then mirror_symbols rows
    else (mirror_symbols rows ++ [PortfolioPosition.symbol p])%list.
Proof.
  unfold mirror_symbols.
  induction rows as [| r rows IH]; cbn [upsert existsb map app]; [reflexivity|].
  destruct (String.eqb (PortfolioPosition.symbol r) (PortfolioPosition.symbol p)) eqn:E;
    cbn [orb map].
  - apply String.eqb_eq in E. now rewrite E.
  - rewrite IH. now destruct (existsb _ rows).
Qed.

Lemma upsert_keeps_symbols (p : PortfolioPosition.t) (rows : list PortfolioPosition.t)
    (s : string) :
  In s (mirror_symbols rows) -> In s (mirror_symbols (upsert p rows)).
Proof.
  intro Hin. rewrite upsert_symbols.
  destruct (existsb _ rows); [exact Hin|]. apply in_or_app. now left.
Qed.

Lemma upsert_NoDup (p : PortfolioPosition.t) (rows : list PortfolioPosition.t) :
  NoDup (mirror_symbols rows) -> NoDup (mirror_symbols (upsert p rows)).
Proof.
  intro Hnodup. rewrite upsert_symbols.
  destruct (existsb _ rows) eqn:E; [exact Hnodup|].
  apply NoDup_app; [exact Hnodup | repeat constructor; intros [] |].
  intros s Hin [Heq | []]. subst s.
  unfold mirror_symbols in Hin. apply in_map_iff in Hin.
  destruct Hin as (r & Hsym & Hr).
  assert (Hex : existsb (fun r0 => String.eqb (PortfolioPosition.symbol r0)
                                     (PortfolioPosition.symbol p)) rows = true).
  { apply existsb_exists. exists r. split; [exact Hr|]. now apply String.eqb_eq. }
  congruence.
Qed.

Lemma find_upsert_same (p : PortfolioPosition.t) (rows : list PortfolioPosition.t) :
  find_position (PortfolioPosition.symbol p) (upsert p rows) = Some p.
Proof.
  unfold find_position.
  induction rows as [| r rows IH]; cbn [upsert find].
  - now rewrite String.eqb_refl.
  - destruct (String.eqb (PortfolioPosition.symbol r) (PortfolioPosition.symbol p)) eqn:E;
      cbn [find].
    + now rewrite String.eqb_refl.
    + now rewrite E.
Qed.

Lemma find_upsert_other (p : PortfolioPosition.t) (rows : list PortfolioPosition.t)
    (s : string) :
  s <> PortfolioPosition.symbol p ->
  find_position s (upsert p rows) = find_position s rows.
Proof.
  intro Hneq. unfold find_position.
  assert (Hp : String.eqb (PortfolioPosition.symbol p) s = false).
  { apply String.eqb_neq. congruence. }
  induction rows as [| r rows IH]; cbn [upsert find].
  - now rewrite Hp.
  - destruct (String.eqb (PortfolioPosition.symbol r) (PortfolioPosition.symbol p)) eqn:E;
      cbn [find].
    + apply String.eqb_eq in E. rewrite E, Hp. reflexivity.
    + now rewrite IH.
Qed.

Lemma upsert_all_find_other (s : string) :
  forall positions rows,
    ~ In s (mirror_symbols positions) ->
    find_position s (upsert_all positions rows) = find_position s rows.
Proof.
  unfold upsert_all.
  induction positions as [| p positions IH]; intros rows Hnotin; cbn [fold_left].
  - reflexivity.
  - rewrite IH.
    + apply find_upsert_other. intro Heq. apply Hnotin. left. now symmetry.
    + intro Hin. apply Hnotin. now right.
Qed.

Lemma upsert_all_find_in :
  forall positions rows p,
    NoDup (mirror_symbols positions) ->
    In p positions ->
    find_position (PortfolioPosition.symbol p) (upsert_all positions rows) = Some p.
Proof.
  induction positions as [| q positions IH]; intros rows p Hnodup Hin; [contradiction|].
  cbn [mirror_symbols map] in Hnodup. inversion Hnodup as [| s l Hnotin Hrest]; subst.
  change (upsert_all (q :: positions) rows) with (upsert_all positions (upsert q rows)).
  destruct Hin as [Heq | Hin].
  - subst q. rewrite upsert_all_find_other; [apply find_upsert_same | exact Hnotin].
  - now apply IH.
Qed.

Lemma upsert_fixed (p : PortfolioPosition.t) (rows : list PortfolioPosition.t) :
  find_position (PortfolioPosition.symbol p) rows = Some p -> upsert p rows = rows.
Proof.
  unfold find_position.
  induction rows as [| r rows IH]; cbn [upsert find]; [discriminate|].
  destruct (String.eqb (PortfolioPosition.symbol r) (PortfolioPosition.symbol p)).
  - intro H. now inversion H.
  - intro H. now rewrite IH.
Qed.

Lemma upsert_all_fixed :
  forall positions rows,
    (forall p, In p positions ->
               find_position (PortfolioPosition.symbol p) rows = Some p) ->
    upsert_all positions rows = rows.
Proof.
  induction positions as [| q positions IH]; intros rows Hall; [reflexivity|].
  change (upsert_all (q :: positions) rows) with (upsert_all positions (upsert q rows)).
  rewrite (upsert_fixed q rows) by (apply Hall; now left).
  apply IH. intros p Hin. apply Hall. now right.
Qed.

End Mirror.

Lemma for_each_upsert_invariant (P : list PortfolioPosition.t -> Prop) :
  (forall p rows, P rows -> P (upsert p rows)) ->
  forall (positions : list PortfolioPosition.t) (w : World) (o : outcome unit)
         (w' : World) (pg : Postgres),
    for_each positions (fun position => on_postgres (upsert_position position)) w
    = (o, w') ->
    postgres_conn w = Some pg ->
    P (portfolio_positions pg) ->
    exists pg', postgres_conn w' = Some pg' /\ P (portfolio_positions pg').
Proof.
  intro Hclosed.
  induction positions as [| p positions IH]; intros w o w' pg Hrun Hpg HP;
    cbn [for_each] in Hrun.
  - inversion Hrun; subst. now exists pg.
  - unfold bind, on_postgres in Hrun. rewrite Hpg in Hrun.
    unfold upsert_position, statement in Hrun.
    destruct (server_up pg); cbn [negb] in Hrun.
    + destruct (tx_aborted pg).
      * inversion Hrun; subst. now exists pg.
      * eapply IH; [exact Hrun | reflexivity |].
        cbn [portfolio_positions set_portfolio_positions]. now apply Hclosed.
    + inversion Hrun; subst. now exists pg.
Qed.

Lemma for_each_upsert_healthy :
  forall (positions : list PortfolioPosition.t) (w : World) (pg : Postgres),
    postgres_conn w = Some pg ->
    server_up pg = true ->
    tx_aborted pg = false ->
    exists w' pg',
      for_each positions (fun position => on_postgres (upsert_position position)) w
      = (Ret tt, w')
      /\ postgres_conn w' = Some pg'
      /\ portfolio_positions pg' = upsert_all positions (portfolio_positions pg)
      /\ server_up pg' = true
      /\ tx_aborted pg' = false
      /\ trades pg' = trades pg
      /\ alpaca_api w' = alpaca_api w.
Proof.
  induction positions as [| p positions IH]; intros w pg Hpg Hup Hab; cbn [for_each].
  - exists w, pg. repeat split; assumption.
  - unfold bind, on_postgres. rewrite Hpg.
    unfold upsert_position, statement. rewrite Hup, Hab. cbn [negb].
    destruct (IH (set_postgres_conn
                    (Some (set_portfolio_positions (upsert p (portfolio_positions pg)) pg))
                    w)
                 (set_portfolio_positions (upsert p (portfolio_positions pg)) pg)
                 eq_refl Hup Hab)
      as (w' & pg' & Hrun & Hpg' & Hrows & Hup' & Hab' & Htrades & Ha).
    exists w', pg'. repeat split; assumption.
Qed.

Lemma update_portfolio_positions_healthy (w : World) (pg : Postgres) :
  postgres_conn w = Some pg ->
  server_up pg = true ->
  tx_aborted pg = false ->
  exists w' pg',
    update_portfolio_positions w = (Ret tt, w')
    /\ postgres_conn w' = Some pg'
    /\ portfolio_positions pg'
       = upsert_all (reported_positions w) (portfolio_positions pg)
    /\ server_up pg' = true
    /\ tx_aborted pg' = false
    /\ trades pg' = trades pg
    /\ alpaca_api w' = alpaca_api w.
Proof.
  intros Hpg Hup Hab.
  unfold update_portfolio_positions.
  unfold bind at 1, record_call, try_except.
  set (w0 := set_calls (CallReconcile :: calls w) w).
  unfold bind at 1.
  destruct (get_portfolio_positions_reported w0) as (w1 & Hget & _ & Hsame).
  rewrite Hget.
  change (reported_positions w0) with (reported_positions w).
  destruct Hsame as (_ & Hpg1 & Ha1 & _).
  change (postgres_conn w0) with (postgres_conn w) in Hpg1.
  change (alpaca_api w0) with (alpaca_api w) in Ha1.
  unfold bind at 1, get. rewrite Hpg1, Hpg.
  destruct (for_each_upsert_healthy (reported_positions w) w1 pg)
    as (w2 & pg2 & Hloop & Hpg2 & Hrows & Hup2 & Hab2 & Htrades & Ha2);
    [congruence | assumption | assumption |].
  unfold bind at 1. rewrite Hloop.
  unfold bind, on_postgres, commit, logger. rewrite Hpg2, Hup2. cbn [negb].
  do 2 eexists. split; [reflexivity|]. world_simpl.
  split; [reflexivity|].
  cbn [portfolio_positions server_up tx_aborted trades set_tx_aborted].
  repeat split; try assumption. congruence.
Qed.

(** X11.  A reconciliation pass never breaks the mirror, whatever the
    brokerage and the store do: if no instrument had two rows before, none
    has after, and every instrument that had a row still has one (rows of
    instruments the brokerage no longer reports are not deleted). *)
Theorem reconciliation_keeps_the_mirror_sound (w : World) (pg : Postgres) :
  postgres_conn w = Some pg ->
  exists pg',
    postgres_conn (snd (update_portfolio_positions w)) = Some pg'
    /\ (NoDup (mirror_symbols (portfolio_positions pg)) ->
        NoDup (mirror_symbols (portfolio_positions pg')))
    /\ (forall s, In s (mirror_symbols (portfolio_positions pg)) ->
                  In s (mirror_symbols (portfolio_positions pg'))).
Proof.
  intro Hpg.
  set (P := fun rows : list PortfolioPosition.t =>
              (NoDup (mirror_symbols (portfolio_positions pg)) ->
               NoDup (mirror_symbols rows))
              /\ (forall s, In s (mirror_symbols (portfolio_positions pg)) ->
                            In s (mirror_symbols rows))).
  assert (Hclosed : forall p rows, P rows -> P (upsert p rows)).
  { intros p rows [Hnd Hin]. split.
    - intro H. apply upsert_NoDup. now apply Hnd.
    - intros s H. apply upsert_keeps_symbols. now apply Hin. }
  assert (HP : P (portfolio_positions pg)) by (split; auto).
  unfold update_portfolio_positions.
  unfold bind at 1, record_call, try_except.
  set (w0 := set_calls (CallReconcile :: calls w) w).
  unfold bind at 1.
  destruct (get_portfolio_positions_reported w0) as (w1 & Hget & _ & Hsame).
  rewrite Hget.
  destruct Hsame as (_ & Hpg1 & _).
  change (postgres_conn w0) with (postgres_conn w) in Hpg1.
  rewrite Hpg in Hpg1.
  unfold bind at 1, get. rewrite Hpg1.
  unfold bind at 1.
  destruct (for_each (reported_positions w0) _ w1) as [o w2] eqn:Hloop.
  destruct (for_each_upsert_invariant P Hclosed _ _ _ _ _ Hloop Hpg1 HP)
    as (pg2 & Hpg2 & HP2).
  destruct o as [[] | e].
  - unfold bind, on_postgres, commit, logger. rewrite Hpg2.
    destruct (server_up pg2); cbn [negb]; world_simpl;
      eexists; (split; [reflexivity | exact HP2]).
  - unfold logger. world_simpl. exists pg2. split; [exact Hpg2 | exact HP2].
Qed.

Lemma reconciliation_keeps_the_mirror_sound_stale :
  exists pg',
    postgres_conn (snd (update_portfolio_positions holding_world)) = Some pg'
    /\ (NoDup (mirror_symbols (portfolio_positions stale_store)) ->
        NoDup (mirror_symbols (portfolio_positions pg')))
    /\ (forall s, In s (mirror_symbols (portfolio_positions stale_store)) ->
                  In s (mirror_symbols (portfolio_positions pg'))).
Proof.
  apply (reconciliation_keeps_the_mirror_sound holding_world stale_store).
  reflexivity.
Defined.


Lemma holding_world_reports :
  reported_positions holding_world
  = [PortfolioPosition.mk "AAPL" 10 100 110 (inject_Z 10 * 110) 100;
     PortfolioPosition.mk "MSFT" 5 200 210 (inject_Z 5 * 210) 50].
Proof. reflexivity. Defined.

Lemma holding_world_reports_NoDup :
  NoDup (mirror_symbols (reported_positions holding_world)).
Proof.
  rewrite holding_world_reports. cbn [mirror_symbols map PortfolioPosition.symbol].
  repeat constructor; cbn [In]; intuition discriminate.
Defined.




(** The pass on [holding_world]: the AAPL row is overwritten in place, the
    stale TSLA row stays, the MSFT row is added. *)
Example mirror_after_one_pass :
  option_map portfolio_positions
    (postgres_conn (snd (update_portfolio_positions holding_world)))
  = Some [PortfolioPosition.mk "TSLA" 3 300 300 900 0;
          PortfolioPosition.mk "AAPL" 10 100 110 (inject_Z 10 * 110) 100;
          PortfolioPosition.mk "MSFT" 5 200 210 (inject_Z 5 * 210) 50].
Proof. reflexivity. Qed.

(** ** The cycle as a whole *)



Lemma executed_app (cs1 cs2 : list Call) :
  executed (cs1 ++ cs2) = (executed cs2 ++ executed cs1)%list.
Proof.
  induction cs1 as [| c cs1 IH]; cbn [executed app].
  - now rewrite app_nil_r.
  - destruct c; rewrite IH; try reflexivity. now rewrite app_assoc.
Qed.

Lemma process_symbol_executes (config_data : TradingConfig)
    (current_positions : list PortfolioPosition.t) (symbol : string) (w : World) :
  exists w' new,
    process_symbol config_data current_positions symbol w = (Ret tt, w')
    /\ calls w' = (new ++ calls w)%list
    /\ (executed new = [] \/ executed new = [symbol]).
Proof.
  unfold process_symbol, try_except. unfold bind at 1.
  destruct (aggregate_sentiment_ret symbol w) as (w1 & Hagg & Hcalls1 & _).
  rewrite Hagg.
  destruct (aggregate_result w symbol) as [score|].
  - destruct (trade_on_sentiment_calls w1 config_data current_positions symbol score)
      as (o & w2 & Hrun & Hcases).
    rewrite Hrun.
    assert (Hnew : exists new, calls w2 = (new ++ calls w)%list
                               /\ (executed new = [] \/ executed new = [symbol])).
    { destruct Hcases as [Hsame | [(q & Hbuy & _) | (q & Hsell & _)]].
      - exists [CallAggregate symbol]. split; [| now left].
        rewrite Hsame, Hcalls1. reflexivity.
      - exists [CallExecute symbol "BUY" q (Some score); CallAggregate symbol].
        split; [| now right]. rewrite Hbuy, Hcalls1. reflexivity.
      - exists [CallExecute symbol "SELL" q (Some score); CallAggregate symbol].
        split; [| now right]. rewrite Hsell, Hcalls1. reflexivity. }
    destruct Hnew as (new & Hcalls2 & Hnew).
    destruct o as [[] | e]; unfold logger;
      exists_world; exists new; (split; [reflexivity | world_simpl; now split]).
  - unfold ret. exists w1, [CallAggregate symbol].
    split; [reflexivity|]. split; [exact Hcalls1 | now left].
Qed.

Lemma for_each_process_symbol_executes (config_data : TradingConfig)
    (current_positions : list PortfolioPosition.t) (symbols : list string) :
  forall w : World,
    exists w' new,
      for_each symbols (process_symbol config_data current_positions) w = (Ret tt, w')
      /\ calls w' = (new ++ calls w)%list
      /\ forall s, (count_occ string_dec (executed new) s
                    <= count_occ string_dec symbols s)%nat.
Proof.
  induction symbols as [| symbol symbols IH]; intro w; cbn [for_each].
  - exists w, []. repeat split. intro s. cbn. lia.
  - destruct (process_symbol_executes config_data current_positions symbol w)
      as (w1 & new1 & Hrun1 & Hcalls1 & Hex1).
    destruct (IH w1) as (w2 & new2 & Hrun2 & Hcalls2 & Hex2).
    exists w2, (new2 ++ new1)%list.
    unfold bind. rewrite Hrun1. split; [exact Hrun2|]. split.
    + rewrite Hcalls2, Hcalls1. now rewrite app_assoc.
    + intro s. rewrite executed_app, count_occ_app. specialize (Hex2 s).
      cbn [count_occ].
      destruct Hex1 as [Hex1 | Hex1]; rewrite Hex1; cbn [count_occ];
        destruct (string_dec symbol s); lia.
Qed.



(** ** HTTP endpoints *)

Lemma execute_trade_over_cap (w : World) (symbol side : string) (quantity : Z)
    (sentiment_score : option Q) (price : Q) :
  ticker_info w (ticker_calls w) symbol = Ret (Some (PyNum price)) ->
  (max_position_size_of (config w) (symbol_config_of (loaded_config w) symbol)
   < inject_Z quantity * price)%Q ->
  exists w',
    execute_trade symbol side quantity sentiment_score w = (Ret None, w')
    /\ alpaca_api w' = alpaca_api w
    /\ postgres_conn w' = postgres_conn w.
Proof.
  intros Hp Hcap. apply Qltb_lt in Hcap. unfold loaded_config in Hcap.
  run_model.
  destruct (alpaca_api w) as [a|] eqn:Ha; world_simpl.
  - rewrite Hp. world_simpl.
    destruct (Qeq_bool price 0) eqn:Hz; world_simpl.
    + eexists; split; [reflexivity | world_simpl; auto].
    + destruct (config_file w) as [config_data | e'] eqn:Hfile;
        repeat (progress (world_simpl; rewrite ?Ha, ?Hfile, ?Hcap));
        (eexists; split; [reflexivity | world_simpl; auto]).
  - eexists; split; [reflexivity | world_simpl; auto].
Qed.






(** ** Sizing and the cap check together *)

Lemma buy_quantity_fits (max_position_size current_price : Q) :
  (0 <= max_position_size)%Q ->
  (0 < current_price)%Q ->
  (inject_Z (buy_quantity max_position_size current_price) * current_price
   <= max_position_size)%Q.
Proof.
  intros Hcap Hprice.
  assert (Hratio : (0 <= max_position_size / current_price)%Q).
  { apply Qle_shift_div_l; [exact Hprice | lra]. }
  unfold buy_quantity. rewrite (py_int_floor _ Hratio).
  pose proof (Qfloor_le (max_position_size / current_price)) as Hle.
  assert (Hdiv : (max_position_size / current_price * current_price
                  == max_position_size)%Q).
  { field. intro H0. rewrite H0 in Hprice. exact (Qlt_irrefl _ Hprice). }
  rewrite <- Hdiv at 2. apply Qmult_le_compat_r; [exact Hle | lra].
Qed.




